(** * A shallow embedding of the tick worker (app/worker/worker.py) and of the
      reader of the dashboard (app/app_docker.py)

    The worker publishes market ticks to a Redis server.  It is fed either by
    a WebSocket client (callbacks [on_open] and [on_message]) or by a random
    walk ([simulate_ticks]); [publish_tick] writes each tick under the key
    [latest:SYMBOL] and pushes it on the list [ticks:SYMBOL].

    Python values are embedded as the inductive type [pyval], Python floats as
    the binary64 numbers of [PrimFloat], exceptions as a result type, and the
    Redis server, the wall clock and the random generator as an explicit world
    that every effectful function threads through. *)

From Stdlib Require Import ZArith Lia Bool Ascii String List DecimalString.
From Stdlib Require Import Floats.PrimFloat Floats.SpecFloat Floats.FloatOps.
From stdpp Require Import gmap strings list.

Local Open Scope string_scope.
Local Open Scope Z_scope.
Local Open Scope list_scope.
Set Warnings "-inexact-float".

(** ** Python strings (ASCII) *)

Module PyString.

(** [str.upper] on one character. *)
Definition upper_ascii (a : ascii) : ascii :=
  let n := nat_of_ascii a in
  if (97 <=? n)%nat && (n <=? 122)%nat then ascii_of_nat (n - 32) else a.

(** [s.upper()] *)
Fixpoint upper (s : string) : string :=
  match s with
  | EmptyString => EmptyString
  | String a r => String (upper_ascii a) (upper r)
  end.

(** The characters [str.strip] removes: tab, line feed, vertical tab, form
    feed, carriage return, the four separators 28..31 and the space. *)
Definition is_space (a : ascii) : bool :=
  let n := nat_of_ascii a in
  ((9 <=? n)%nat && (n <=? 13)%nat) || ((28 <=? n)%nat && (n <=? 32)%nat).

Fixpoint lstrip (s : string) : string :=
  match s with
  | EmptyString => EmptyString
  | String a r => if is_space a then lstrip r else s
  end.

Fixpoint rstrip (s : string) : string :=
  match s with
  | EmptyString => EmptyString
  | String a r =>
      match rstrip r with
      | EmptyString => if is_space a then EmptyString else String a EmptyString
      | r' => String a r'
      end
  end.

(** [s.strip()] *)
Definition strip (s : string) : string := rstrip (lstrip s).

(** [s.split(sep)] for a separator of one character: never the empty
    list, and an empty field between two adjacent separators. *)
Fixpoint split (sep : ascii) (s : string) : list string :=
  match s with
  | EmptyString => [EmptyString]
  | String a r =>
      if Ascii.eqb a sep then EmptyString :: split sep r
      else match split sep r with
           | x :: xs => String a x :: xs
           | [] => [String a EmptyString]
           end
  end.

(** [n] printed in decimal on exactly [w] digits (the [%0wd] of the
    [datetime] formats, for a number that fits). *)
Fixpoint zpad (w n : nat) : string :=
  match w with
  | O => EmptyString
  | S w' => zpad w' (n / 10) +:+ String (ascii_of_nat (48 + n mod 10)) EmptyString
  end.

(** [str(z)] for an integer. *)
Definition of_Z (z : Z) : string := NilZero.string_of_int (Z.to_int z).

End PyString.

(** ** Python values *)

(** The values [json.loads] builds and [json.dumps] prints.  A [dict] is
    kept as its list of items; [dict_get] returns the first item of a key. *)
#[warnings="-register-all"]
Inductive pyval : Type :=
| PNone
| PBool (b : bool)
| PInt (z : Z)
| PFloat (f : float)
| PStr (s : string)
| PList (l : list pyval)
| PDict (d : list (string * pyval)).

(** The exceptions that reach the worker; all of them are subclasses of
    [Exception]. *)
Inductive exn : Type :=
| TypeError
| ValueError
| OverflowError
| AttributeError
| KeyError
| JSONDecodeError
| ConnectionError
| ResponseError
| ImportError
| WebSocketException.

(** The outcome of a Python call: a value, or a raised exception. *)
Inductive res (A : Type) : Type :=
| Ok (a : A)
| Raise (e : exn).
Arguments Ok {A} a.
Arguments Raise {A} e.

Definition res_bind {A B : Type} (r : res A) (k : A -> res B) : res B :=
  match r with
  | Ok a => k a
  | Raise e => Raise e
  end.

(** Truth value of an object, as [or] and [if] test it. *)
Definition truthy (v : pyval) : bool :=
  match v with
  | PNone => false
  | PBool b => b
  | PInt z => negb (z =? 0)
  | PFloat f => negb (PrimFloat.is_zero f)
  | PStr s => negb (String.eqb s "")
  | PList l => match l with [] => false | _ => true end
  | PDict d => match d with [] => false | _ => true end
  end.

(** [a or b] (the second operand has no effect in the worker, so it is
    passed evaluated). *)
Definition py_or (a b : pyval) : pyval := if truthy a then a else b.

Fixpoint dict_get (k : string) (d : list (string * pyval)) : pyval :=
  match d with
  | [] => PNone
  | (k', v) :: r => if String.eqb k' k then v else dict_get k r
  end.

(** [msg.get(k)]: [None] for a missing key; only a dict has the method. *)
Definition py_get (msg : pyval) (k : string) : res pyval :=
  match msg with
  | PDict d => Ok (dict_get k d)
  | _ => Raise AttributeError
  end.

(** [v == s] for a string literal [s]. *)
Definition py_eq_str (v : pyval) (s : string) : bool :=
  match v with
  | PStr s' => String.eqb s' s
  | _ => false
  end.

(** [float(z)] for an integer: the nearest binary64 number, [OverflowError]
    beyond the largest one. *)
Definition float_of_int (z : Z) : res float :=
  match binary_normalize prec emax z 0 false with
  | S754_infinity _ => Raise OverflowError
  | sf => Ok (SF2Prim sf)
  end.

(** [int(f)] for a float: truncation towards zero. *)
Definition int_of_float (f : float) : res Z :=
  match Prim2SF f with
  | S754_zero _ => Ok 0
  | S754_infinity _ => Raise OverflowError
  | S754_nan => Raise ValueError
  | S754_finite s m e =>
      let a := Z.shiftl (Zpos m) e in
      Ok (if s then - a else a)
  end.

(** What the worker uses of the Python library and cannot be written from
    the worker's own text: the parsers behind [float(str)] and [int(str)],
    [round], [str] of the values that have no fixed spelling here, the JSON
    codec, and the generator of the [random] module. *)
Class PyRuntime : Type := {
  float_of_str : string -> option float;
  int_of_str : string -> option Z;
  round_ndigits : float -> Z -> float;
  repr_other : pyval -> string;
  json_dumps : pyval -> string;
  json_loads : string -> option pyval;
  rng_state : Type;
  rng_random : rng_state -> float * rng_state;
  rng_randint : Z -> Z -> rng_state -> Z * rng_state
}.

Section Conversions.
Context `{PyRuntime}.

(** [float(v)] *)
Definition py_float (v : pyval) : res float :=
  match v with
  | PNone => Raise TypeError
  | PBool b => Ok (if b then 1%float else 0%float)
  | PInt z => float_of_int z
  | PFloat f => Ok f
  | PStr s => match float_of_str s with
              | Some f => Ok f
              | None => Raise ValueError
              end
  | PList _ => Raise TypeError
  | PDict _ => Raise TypeError
  end.

(** [int(v)] *)
Definition py_int (v : pyval) : res Z :=
  match v with
  | PNone => Raise TypeError
  | PBool b => Ok (if b then 1 else 0)
  | PInt z => Ok z
  | PFloat f => int_of_float f
  | PStr s => match int_of_str s with
              | Some z => Ok z
              | None => Raise ValueError
              end
  | PList _ => Raise TypeError
  | PDict _ => Raise TypeError
  end.

(** [str(v)], as an f-string formats a value. *)
Definition py_str (v : pyval) : string :=
  match v with
  | PStr s => s
  | PNone => "None"
  | PBool true => "True"
  | PBool false => "False"
  | PInt z => PyString.of_Z z
  | _ => repr_other v
  end.

(** [random.uniform(a, b)] is [a + (b - a) * random()]. *)
Definition rng_uniform (a b : float) (g : rng_state) : float * rng_state :=
  let (u, g') := rng_random g in
  ((a + (b - a) * u)%float, g').

End Conversions.

(** ** The Redis server *)

Module Redis.

(** A key holds a string or a list of strings ([decode_responses=True]). *)
Inductive rval : Type :=
| RStr (s : string)
| RList (l : list string).

Abbreviation store := (gmap string rval).

(** [SET key v] overwrites whatever the key holds. *)
Definition set (key v : string) (m : store) : store := <[key := RStr v]> m.

(** [GET key] *)
Definition get (key : string) (m : store) : res (option string) :=
  match m !! key with
  | None => Ok None
  | Some (RStr s) => Ok (Some s)
  | Some (RList _) => Raise ResponseError
  end.

(** [LPUSH key v] creates the list when the key is missing and refuses a
    key that holds a string. *)
Definition lpush (key v : string) (m : store) : res store :=
  match m !! key with
  | None => Ok (<[key := RList [v]]> m)
  | Some (RList l) => Ok (<[key := RList (v :: l)]> m)
  | Some (RStr _) => Raise ResponseError
  end.

(** The elements of [l] that [LTRIM start stop] keeps: negative indices
    count from the end, the bounds are inclusive and clamped. *)
Definition trim_range (start stop : Z) (l : list string) : list string :=
  let len := Z.of_nat (length l) in
  let start := if start <? 0 then start + len else start in
  let stop := if stop <? 0 then stop + len else stop in
  let start := if start <? 0 then 0 else start in
  if (stop <? start) || (len <=? start) then []
  else
    let stop := if len <=? stop then len - 1 else stop in
    firstn (Z.to_nat (stop - start + 1)) (skipn (Z.to_nat start) l).

(** [LTRIM key start stop]; a list that becomes empty is deleted. *)
Definition ltrim (key : string) (start stop : Z) (m : store) : res store :=
  match m !! key with
  | None => Ok m
  | Some (RList l) =>
      match trim_range start stop l with
      | [] => Ok (delete key m)
      | l' => Ok (<[key := RList l']> m)
      end
  | Some (RStr _) => Raise ResponseError
  end.

(** [LRANGE key 0 -1], the whole list (empty for a missing key). *)
Definition window (key : string) (m : store) : list string :=
  match m !! key with
  | Some (RList l) => l
  | _ => []
  end.

(** [LRANGE key start stop]: the same reading of the indices as [LTRIM];
    a missing key is an empty list. *)
Definition lrange (key : string) (start stop : Z) (m : store) : res (list string) :=
  match m !! key with
  | None => Ok []
  | Some (RList l) => Ok (trim_range start stop l)
  | Some (RStr _) => Raise ResponseError
  end.

End Redis.

(** ** The world around the worker *)

(** A reading of [datetime.utcnow()]. *)
Record datetime : Type := Datetime {
  year : nat; month : nat; day : nat;
  hour : nat; minute : nat; second : nat; microsecond : nat
}.

(** [d.isoformat()]: the microseconds are printed only when they are not 0. *)
Definition isoformat (d : datetime) : string :=
  PyString.zpad 4 (year d) +:+ "-" +:+ PyString.zpad 2 (month d) +:+ "-" +:+
  PyString.zpad 2 (day d) +:+ "T" +:+ PyString.zpad 2 (hour d) +:+ ":" +:+
  PyString.zpad 2 (minute d) +:+ ":" +:+ PyString.zpad 2 (second d) +:+
  (if (microsecond d =? 0)%nat then "" else "." +:+ PyString.zpad 6 (microsecond d)).

(** What the worker does not control: the value of the n-th reading of the
    clock, and whether the Redis server answers the n-th command sent to it
    ([false]: the command raises [redis.ConnectionError] and changes
    nothing). *)
Record env : Type := Env {
  utcnow : nat -> datetime;
  redis_up : nat -> bool
}.

(** The state the worker acts on, for a generator whose state has type
    [G].  [db] is the content of the server, [ncmd] and [nclk] count the
    commands sent and the clock readings made, [rng] is the state of the
    [random] module, [sent] the frames written to the WebSocket (oldest
    first) and [connects] the number of connections opened.  [published] is a
    history variable: the payloads of the calls of [publish_tick] that ran to
    their end, most recent first. *)
Record world_of (G : Type) : Type := World {
  db : gmap string Redis.rval;
  ncmd : nat;
  nclk : nat;
  rng : G;
  sent : list string;
  connects : nat;
  published : list pyval
}.
Arguments World {G} db ncmd nclk rng sent connects published.
Arguments db {G} w.
Arguments ncmd {G} w.
Arguments nclk {G} w.
Arguments rng {G} w.
Arguments sent {G} w.
Arguments connects {G} w.
Arguments published {G} w.

Section World.
Context `{PyRuntime}.

Definition world : Type := world_of rng_state.

Definition set_db (m : gmap string Redis.rval) (w : world) : world :=
  World m (ncmd w) (nclk w) (rng w) (sent w) (connects w) (published w).
Definition set_ncmd (n : nat) (w : world) : world :=
  World (db w) n (nclk w) (rng w) (sent w) (connects w) (published w).
Definition set_nclk (n : nat) (w : world) : world :=
  World (db w) (ncmd w) n (rng w) (sent w) (connects w) (published w).
Definition set_rng (g : rng_state) (w : world) : world :=
  World (db w) (ncmd w) (nclk w) g (sent w) (connects w) (published w).
Definition set_sent (l : list string) (w : world) : world :=
  World (db w) (ncmd w) (nclk w) (rng w) l (connects w) (published w).
Definition set_connects (n : nat) (w : world) : world :=
  World (db w) (ncmd w) (nclk w) (rng w) (sent w) n (published w).
Definition set_published (l : list pyval) (w : world) : world :=
  World (db w) (ncmd w) (nclk w) (rng w) (sent w) (connects w) l.

(** An effectful computation: it returns or raises, and in both cases
    leaves a world behind (what was written before a raise stays written). *)
Definition io (A : Type) : Type := world -> res A * world.

Definition ret {A : Type} (a : A) : io A := fun w => (Ok a, w).

Definition raise {A : Type} (e : exn) : io A := fun w => (Raise e, w).

Definition bind {A B : Type} (c : io A) (k : A -> io B) : io B :=
  fun w =>
    match c w with
    | (Ok a, w') => k a w'
    | (Raise e, w') => (Raise e, w')
    end.

(** [try: c  except Exception as e: h e] *)
Definition try_except {A : Type} (c : io A) (h : exn -> io A) : io A :=
  fun w =>
    match c w with
    | (Ok a, w') => (Ok a, w')
    | (Raise e, w') => h e w'
    end.

(** A computation without effect. *)
Definition lift {A : Type} (r : res A) : io A := fun w => (r, w).

End World.

Declare Scope io_scope.
Delimit Scope io_scope with io.
Notation "x <- c ;; k" := (bind c (fun x => k))
  (at level 100, c at next level, right associativity) : io_scope.
Notation "c ;; k" := (bind c (fun _ => k))
  (at level 100, right associativity) : io_scope.

(** ** The worker *)

(** [WATCHLIST = [s.strip().upper() for s in os.getenv("WATCHLIST", ...).split(",")]] *)
Definition watchlist_of_env (v : string) : list string :=
  map (fun s => PyString.upper (PyString.strip s)) (PyString.split "," v).

Definition default_watchlist : list string :=
  watchlist_of_env "AAPL,MSFT,TSLA,RELIANCE.NS".

Section Worker.
Context `{PyRuntime}.

(** The module-level configuration, read once from the environment:
    [POLY_KEY] is [os.getenv("POLYGON_API_KEY")] ([None] when unset) and
    [TICK_LIST_LEN] is [int(os.getenv("TICK_LIST_LEN", "200"))]. *)
Variable POLY_KEY : option string.
Variable WATCHLIST : list string.
Variable TICK_LIST_LEN : Z.
Variable E : env.

Local Open Scope io_scope.

(** One command sent to the server through the client [r]. *)
Definition redis_cmd (f : gmap string Redis.rval -> res (gmap string Redis.rval))
  : io unit :=
  fun w =>
    let w' := set_ncmd (S (ncmd w)) w in
    if redis_up E (ncmd w) then
      match f (db w) with
      | Ok m => (Ok tt, set_db m w')
      | Raise e => (Raise e, w')
      end
    else (Raise ConnectionError, w').

(** [r.get(key)] *)
Definition redis_get (key : string) : io (option string) :=
  fun w =>
    let w' := set_ncmd (S (ncmd w)) w in
    if redis_up E (ncmd w) then (Redis.get key (db w), w')
    else (Raise ConnectionError, w').

(** [datetime.utcnow()] *)
Definition read_clock : io datetime :=
  fun w => (Ok (utcnow E (nclk w)), set_nclk (S (nclk w)) w).

(** A call of a function of the [random] module. *)
Definition draw {A : Type} (f : rng_state -> A * rng_state) : io A :=
  fun w => let (a, g) := f (rng w) in (Ok a, set_rng g w).

(** Entry of the history, when [publish_tick] returns. *)
Definition record_published (payload : pyval) : io unit :=
  fun w => (Ok tt, set_published (payload :: published w) w).

(** The dict [publish_tick] builds. *)
Definition tick_payload (sym : pyval) (price : float) (size : Z)
    (now : datetime) (ev_type : string) : pyval :=
  PDict [("symbol", sym); ("price", PFloat price); ("size", PInt size);
         ("ts", PStr (isoformat now +:+ "Z")); ("type", PStr ev_type)].

Definition latest_key (sym : pyval) : string := "latest:" +:+ py_str sym.
Definition ticks_key (sym : pyval) : string := "ticks:" +:+ py_str sym.

(** [publish_tick(sym, price, size, ev_type)]: the values of the dict are
    evaluated in order, so a failing [float(price)] or [int(size)] raises
    before the clock is read and before anything is sent to the server. *)
Definition publish_tick (sym price size : pyval) (ev_type : string) : io unit :=
  p <- lift (py_float price) ;;
  n <- lift (py_int size) ;;
  now <- read_clock ;;
  let payload := tick_payload sym p n now ev_type in
  let key := latest_key sym in
  let listkey := ticks_key sym in
  redis_cmd (fun m => Ok (Redis.set key (json_dumps payload) m)) ;;
  redis_cmd (Redis.lpush listkey (json_dumps payload)) ;;
  redis_cmd (Redis.ltrim listkey 0 (TICK_LIST_LEN - 1)) ;;
  record_published payload.

(** The first loop of [simulate_ticks]: [base[s] = 100.0 + random.random()*100]. *)
Fixpoint init_base (wl : list string) (base : gmap string float)
  : io (gmap string float) :=
  match wl with
  | [] => ret base
  | s :: rest =>
      u <- draw rng_random ;;
      init_base rest (<[s := (100.0 + u * 100)%float]> base)
  end.

(** The body of the inner loop of [simulate_ticks] for the symbol [s]. *)
Definition sim_symbol (s : string) (base : gmap string float)
  : io (gmap string float) :=
  match base !! s with
  | None => raise KeyError
  | Some last =>
      change_pct <- draw (rng_uniform (-0.01)%float 0.01%float) ;;
      let new := (last * (1 + change_pct))%float in
      let base' := <[s := new]> base in
      size <- draw (rng_randint 1 100) ;;
      publish_tick (PStr s) (PFloat (round_ndigits new 2)) (PInt size) "T" ;;
      ret base'
  end.

(** [for s in WATCHLIST: ...], one round of the outer loop. *)
Fixpoint sim_round (wl : list string) (base : gmap string float)
  : io (gmap string float) :=
  match wl with
  | [] => ret base
  | s :: rest => base' <- sim_symbol s base ;; sim_round rest base'
  end.

(** [rounds] iterations of [while True: ...; time.sleep(1)]. *)
Fixpoint sim_loop (rounds : nat) (base : gmap string float)
  : io (gmap string float) :=
  match rounds with
  | O => ret base
  | S k => base' <- sim_round WATCHLIST base ;; sim_loop k base'
  end.

(** [simulate_ticks()], observed after [rounds] iterations of its endless
    loop: [Ok base] when it is still running, with the prices it holds;
    [Raise e] when an exception left it before. *)
Definition simulate_ticks (rounds : nat) : io (gmap string float) :=
  base <- init_base WATCHLIST ∅ ;;
  sim_loop rounds base.

(** [ws.send(frame)] *)
Definition ws_send (frame : string) : io unit :=
  fun w => (Ok tt, set_sent (sent w ++ [frame]) w).

Definition poly_key : pyval :=
  match POLY_KEY with
  | Some k => PStr k
  | None => PNone
  end.

Definition auth_frame : string :=
  json_dumps (PDict [("action", PStr "auth"); ("params", poly_key)]).

Definition subscribe_frame (s : string) : string :=
  json_dumps (PDict [("action", PStr "subscribe"); ("params", PStr ("T." +:+ s))]).

Fixpoint subscribe_all (wl : list string) : io unit :=
  match wl with
  | [] => ret tt
  | s :: rest => ws_send (subscribe_frame s) ;; subscribe_all rest
  end.

(** [on_open(ws)] *)
Definition on_open : io unit :=
  ws_send auth_frame ;;
  subscribe_all WATCHLIST.

(** [msg.get(k1) or msg.get(k2)] *)
Definition get_or (msg : pyval) (k1 k2 : string) : res pyval :=
  res_bind (py_get msg k1) (fun a =>
  if truthy a then Ok a else py_get msg k2).

(** The body of the loop of [on_message] for one element of the array. *)
Definition on_element (msg : pyval) : io unit :=
  ev_type <- lift (py_get msg "ev") ;;
  if py_eq_str ev_type "T" then
    sym <- lift (get_or msg "sym" "ticker") ;;
    price <- lift (get_or msg "p" "price") ;;
    size <- lift (res_bind (get_or msg "s" "size") (fun a =>
                  Ok (py_or a (PInt 1)))) ;;
    publish_tick sym price size "T"
  else ret tt.

Fixpoint on_elements (data : list pyval) : io unit :=
  match data with
  | [] => ret tt
  | msg :: rest => on_element msg ;; on_elements rest
  end.

(** [on_message(ws, message)]: one [try] around the whole handler;
    [except Exception] prints and returns. *)
Definition on_message (message : string) : io unit :=
  try_except
    (match json_loads message with
     | None => raise JSONDecodeError
     | Some (PList data) => on_elements data
     | Some _ => ret tt
     end)
    (fun _ => ret tt).

(** What the WebSocket library does with the callbacks during
    [ws.run_forever()]: the events it delivers, and the exception, if any,
    with which the call ends. *)
Inductive ws_event : Type :=
| WsOpen
| WsMessage (message : string)
| WsError
| WsClose.

Record session : Type := Session {
  installed : bool;
  events : list ws_event;
  failure : option exn
}.

Definition dispatch (ev : ws_event) : io unit :=
  match ev with
  | WsOpen => on_open
  | WsMessage m => on_message m
  | WsError => ret tt
  | WsClose => ret tt
  end.

Fixpoint dispatch_all (evs : list ws_event) : io unit :=
  match evs with
  | [] => ret tt
  | ev :: rest => dispatch ev ;; dispatch_all rest
  end.

Definition connect : io unit :=
  fun w => (Ok tt, set_connects (S (connects w)) w).

(** The body of the [try] of the module: [import websocket], the
    definition of the callbacks, and [ws.run_forever()]. *)
Definition live_feed (s : session) : io unit :=
  if installed s then
    connect ;;
    dispatch_all (events s) ;;
    match failure s with
    | Some e => raise e
    | None => ret tt
    end
  else raise ImportError.

(** The module body from [if POLY_KEY:] on, the simulator being observed
    for [rounds] iterations. *)
Definition main (s : session) (rounds : nat) : io unit :=
  if truthy poly_key then
    try_except (live_feed s)
               (fun _ => simulate_ticks rounds ;; ret tt)
  else simulate_ticks rounds ;; ret tt.

(** [get_latest_from_redis(symbol)] of the dashboard; the Python [None]
    it returns is [PNone]. *)
Definition get_latest_from_redis (symbol : string) : io pyval :=
  let key := "latest:" +:+ PyString.upper symbol in
  try_except
    (payload <- redis_get key ;;
     match payload with
     | Some s =>
         if negb (String.eqb s "") then
           match json_loads s with
           | Some v => ret v
           | None => raise JSONDecodeError
           end
         else ret PNone
     | None => ret PNone
     end)
    (fun _ => ret PNone).

End Worker.

(** ** The dashboard (app_docker.py) *)

(** [d.get(k, default)] on the items of a dict: the default only for a
    missing key. *)
Fixpoint dict_get_default (k : string) (default : pyval)
    (d : list (string * pyval)) : pyval :=
  match d with
  | [] => default
  | (k', v) :: r => if String.eqb k' k then v else dict_get_default k default r
  end.

(** [entry.get(k, default)] *)
Definition py_get_default (entry : pyval) (k : string) (default : pyval) : res pyval :=
  match entry with
  | PDict d => Ok (dict_get_default k default d)
  | _ => Raise AttributeError
  end.

(** What the yfinance service answers for a symbol: an exception, or the
    [shortName] of [t.info] ([None] when it has none) and the column [Close]
    of [t.history(period=5d)], oldest first. *)
Inductive yf_answer : Type :=
| YfRaise (e : exn)
| YfData (short_name : pyval) (closes : list float).

Section Dashboard.
Context `{PyRuntime}.

(** [WATCHLIST] is here the raw [os.getenv(...).split(",")]; [redis_ok]
    tells whether the [ping] made when the page starts was answered. *)
Variable WATCHLIST : list string.
Variable E : env.
Variable yfinance : string -> yf_answer.
Variable redis_ok : bool.

Local Open Scope io_scope.

(** [fallback_yfinance(symbol)] *)
Definition fallback_yfinance (symbol : string) : pyval :=
  match yfinance symbol with
  | YfData short_name closes =>
      PDict [("source", PStr "yfinance");
             ("last", match last closes with
                      | Some c => PFloat c
                      | None => PNone
                      end);
             ("info", PDict [("shortName", short_name)])]
  | YfRaise _ =>
      PDict [("source", PStr "yfinance"); ("last", PNone); ("info", PDict [])]
  end.

(** The body of the loop of [render_tape] for one entry of the Watchlist:
    the row it appends. *)
Definition tape_row (sym : string) : io pyval :=
  let sym := PyString.upper (PyString.strip sym) in
  entry <- (if redis_ok then get_latest_from_redis E sym else ret PNone) ;;
  let entry := if truthy entry then entry else fallback_yfinance sym in
  last <- lift (py_get entry "last") ;;
  src <- lift (py_get_default entry "source" (PStr "unknown")) ;;
  ret (PDict [("symbol", PStr sym); ("last", last); ("source", src)]).

Fixpoint tape_rows (wl : list string) : io (list pyval) :=
  match wl with
  | [] => ret []
  | sym :: rest =>
      row <- tape_row sym ;;
      rows <- tape_rows rest ;;
      ret (row :: rows)
  end.

(** [render_tape()]: the rows handed to the table, in the order of the
    Watchlist. *)
Definition render_tape : io (list pyval) := tape_rows WATCHLIST.

(** [r.lrange(key, start, stop)] *)
Definition redis_lrange (key : string) (start stop : Z) : io (list string) :=
  fun w =>
    let w' := set_ncmd (S (ncmd w)) w in
    if redis_up E (ncmd w) then (Redis.lrange key start stop (db w), w')
    else (Raise ConnectionError, w').

(** [[json.loads(x) for x in ticks]] *)
Fixpoint loads_all (ticks : list string) : res (list pyval) :=
  match ticks with
  | [] => Ok []
  | x :: rest =>
      match json_loads x with
      | None => Raise JSONDecodeError
      | Some v => res_bind (loads_all rest) (fun l => Ok (v :: l))
      end
  end.

(** The [try] of the view of the recent ticks of the chosen symbol: the
    list [ticks] it builds from the twenty first elements of
    [ticks:SYMBOL], or the exception its [except] shows. *)
Definition recent_ticks (sym : string) : io (list pyval) :=
  ticks <- redis_lrange ("ticks:" +:+ sym) 0 19 ;;
  lift (loads_all ticks).

End Dashboard.

(** ** A reference runtime

    An executable instance of [PyRuntime], used to run the worker on
    concrete inputs.  Its JSON codec follows [json.dumps] and [json.loads]
    on printable ASCII text without exponents or escapes other than those of
    the quote and the backslash; its [round] and its printing of floats are
    computed on the exact value of the binary64 number; its generator is a
    linear congruential one (the real one is a Mersenne Twister). *)

Module Ref.

Definition fz (z : Z) : float :=
  match float_of_int z with
  | Ok f => f
  | Raise _ => infinity
  end.

(** The integer nearest to [m * 2^e * 10^d], ties to even ([0 <= m]). *)
Definition round_scaled (m e d : Z) : Z :=
  let num := m * (if 0 <=? e then 2 ^ e else 1) * (if 0 <=? d then 10 ^ d else 1) in
  let den := (if 0 <=? e then 1 else 2 ^ (- e)) * (if 0 <=? d then 1 else 10 ^ (- d)) in
  let q := num / den in
  let r := num mod den in
  if 2 * r <? den then q
  else if den <? 2 * r then q + 1
  else if Z.even q then q else q + 1.

(** The float nearest to [q / 10^d]. *)
Definition unscale (q d : Z) : float :=
  if 0 <=? d then (fz q / fz (10 ^ d))%float else fz (q * 10 ^ (- d)).

(** [round(x, d)] *)
Definition round_ndigits (x : float) (d : Z) : float :=
  match Prim2SF x with
  | S754_finite s m e =>
      let y := unscale (round_scaled (Zpos m) e d) d in
      if s then (- y)%float else y
  | _ => x
  end.

Definition digits (z : Z) : string := PyString.of_Z z.

(** The [w] last decimal digits of [z]. *)
Fixpoint last_digits (w : nat) (z : Z) : string :=
  match w with
  | O => EmptyString
  | S w' => last_digits w' (z / 10) +:+
            String (ascii_of_nat (48 + Z.to_nat (z mod 10))) EmptyString
  end.

(** The least number of decimals, from [d] on and within [fuel] tries, with
    which [m * 2^e] prints to a text that reads back as [x]. *)
Fixpoint shortest (fuel : nat) (x : float) (m e d : Z) : Z * Z :=
  let q := round_scaled m e d in
  match fuel with
  | O => (q, d)
  | S k => if PrimFloat.eqb (unscale q d) x then (q, d) else shortest k x m e (d + 1)
  end.

(** [repr(x)] in fixed notation, with the spellings of [json.dumps] for
    the values that are not finite. *)
Definition float_repr (x : float) : string :=
  match Prim2SF x with
  | S754_zero s => if s then "-0.0" else "0.0"
  | S754_infinity s => if s then "-Infinity" else "Infinity"
  | S754_nan => "NaN"
  | S754_finite s m e =>
      let '(q, d) := shortest 20 (abs x) (Zpos m) e 0 in
      (if s then "-" else "") +:+ digits (q / 10 ^ d) +:+ "." +:+
      (if d =? 0 then "0" else last_digits (Z.to_nat d) q)
  end.

Definition is_digit (a : ascii) : bool :=
  let n := nat_of_ascii a in (48 <=? n)%nat && (n <=? 57)%nat.

(** The digits at the head of [s]: their value after [acc], their number,
    and the rest of [s]. *)
Fixpoint read_digits (s : string) (acc : Z) (n : Z) : Z * Z * string :=
  match s with
  | String a r =>
      if is_digit a
      then read_digits r (10 * acc + Z.of_nat (nat_of_ascii a - 48)) (n + 1)
      else (acc, n, s)
  | EmptyString => (acc, n, s)
  end.

(** A JSON number without exponent: an [int], or a [float] when it has a
    fraction. *)
Definition read_number (s : string) : option (pyval * string) :=
  let '(neg, s1) := match s with
                    | String "-" r => (true, r)
                    | _ => (false, s)
                    end in
  let '(i, ni, s2) := read_digits s1 0 0 in
  if ni =? 0 then None
  else match s2 with
       | String "." r =>
           let '(f, nf, s3) := read_digits r i 0 in
           if nf =? 0 then None
           else let y := unscale f nf in
                Some (PFloat (if neg then (- y)%float else y), s3)
       | _ => Some (PInt (if neg then - i else i), s2)
       end.

(** [float(s)] and [int(s)] on a plain decimal numeral. *)
Definition float_of_str (s : string) : option float :=
  match read_number (PyString.strip s) with
  | Some (PFloat f, EmptyString) => Some f
  | Some (PInt z, EmptyString) => Some (fz z)
  | _ => None
  end.

Definition int_of_str (s : string) : option Z :=
  match read_number (PyString.strip s) with
  | Some (PInt z, EmptyString) => Some z
  | _ => None
  end.

(** The double quote and the backslash. *)
Definition dquote : ascii := ascii_of_nat 34.
Definition backslash : ascii := ascii_of_nat 92.

(** The text of a JSON string, after its opening quote. *)
Fixpoint read_string (s : string) : option (string * string) :=
  match s with
  | EmptyString => None
  | String c r =>
      if Ascii.eqb c dquote then Some (EmptyString, r)
      else if Ascii.eqb c backslash then
        match r with
        | String c' r' =>
            if Ascii.eqb c' dquote || Ascii.eqb c' backslash || Ascii.eqb c' "/" then
              match read_string r' with
              | Some (t, r'') => Some (String c' t, r'')
              | None => None
              end
            else None
        | EmptyString => None
        end
      else
        match read_string r with
        | Some (t, r') => Some (String c t, r')
        | None => None
        end
  end.

(** [d[k] = v] for a dict kept as its list of items. *)
Fixpoint dict_set (k : string) (v : pyval) (d : list (string * pyval))
  : list (string * pyval) :=
  match d with
  | [] => [(k, v)]
  | (k', v') :: r => if String.eqb k' k then (k, v) :: r else (k', v') :: dict_set k v r
  end.

Definition starts_with (p s : string) : option string :=
  if String.prefix p s
  then Some (String.substring (String.length p) (String.length s - String.length p) s)
  else None.

Fixpoint read_value (fuel : nat) (s : string) : option (pyval * string) :=
  match fuel with
  | O => None
  | S k =>
      let s := PyString.lstrip s in
      match s with
      | String "[" r =>
          match PyString.lstrip r with
          | String "]" r' => Some (PList [], r')
          | _ => match read_items k r with
                 | Some (l, r') => Some (PList l, r')
                 | None => None
                 end
          end
      | String "{" r =>
          match PyString.lstrip r with
          | String "}" r' => Some (PDict [], r')
          | _ => match read_members k r [] with
                 | Some (d, r') => Some (PDict d, r')
                 | None => None
                 end
          end
      | String c r =>
          if Ascii.eqb c dquote then
            match read_string r with
            | Some (t, r') => Some (PStr t, r')
            | None => None
            end
          else
            match starts_with "null" s, starts_with "true" s, starts_with "false" s with
            | Some r, _, _ => Some (PNone, r)
            | _, Some r, _ => Some (PBool true, r)
            | _, _, Some r => Some (PBool false, r)
            | _, _, _ => read_number s
            end
      | EmptyString => None
      end
  end

with read_items (fuel : nat) (s : string) : option (list pyval * string) :=
  match fuel with
  | O => None
  | S k =>
      match read_value k s with
      | Some (v, r) =>
          match PyString.lstrip r with
          | String "," r' =>
              match read_items k r' with
              | Some (l, r'') => Some (v :: l, r'')
              | None => None
              end
          | String "]" r' => Some ([v], r')
          | _ => None
          end
      | None => None
      end
  end

with read_members (fuel : nat) (s : string) (acc : list (string * pyval))
  : option (list (string * pyval) * string) :=
  match fuel with
  | O => None
  | S k =>
      match PyString.lstrip s with
      | String c r =>
          if Ascii.eqb c dquote then
            match read_string r with
            | Some (key, r1) =>
                match PyString.lstrip r1 with
                | String ":" r2 =>
                    match read_value k r2 with
                    | Some (v, r3) =>
                        let acc' := dict_set key v acc in
                        match PyString.lstrip r3 with
                        | String "," r4 => read_members k r4 acc'
                        | String "}" r4 => Some (acc', r4)
                        | _ => None
                        end
                    | None => None
                    end
                | _ => None
                end
            | None => None
            end
          else None
      | EmptyString => None
      end
  end.

(** [json.loads(s)] *)
Definition json_loads (s : string) : option pyval :=
  match read_value (2 * String.length s + 2) s with
  | Some (v, r) =>
      match PyString.lstrip r with
      | EmptyString => Some v
      | _ => None
      end
  | None => None
  end.

(** A JSON string: quotes and backslashes are escaped. *)
Fixpoint escape (s : string) : string :=
  match s with
  | EmptyString => EmptyString
  | String c r =>
      if Ascii.eqb c dquote || Ascii.eqb c backslash
      then String backslash (String c (escape r))
      else String c (escape r)
  end.

Definition quote (s : string) : string :=
  String dquote (escape s) +:+ String dquote EmptyString.

(** [json.dumps(v)] with the default separators. *)
Fixpoint json_dumps (v : pyval) : string :=
  match v with
  | PNone => "null"
  | PBool true => "true"
  | PBool false => "false"
  | PInt z => digits z
  | PFloat f => float_repr f
  | PStr s => quote s
  | PList l =>
      "[" +:+
      (fix items (l : list pyval) : string :=
         match l with
         | [] => ""
         | [x] => json_dumps x
         | x :: r => json_dumps x +:+ ", " +:+ items r
         end) l +:+ "]"
  | PDict d =>
      "{" +:+
      (fix members (d : list (string * pyval)) : string :=
         match d with
         | [] => ""
         | [(k, x)] => quote k +:+ ": " +:+ json_dumps x
         | (k, x) :: r => quote k +:+ ": " +:+ json_dumps x +:+ ", " +:+ members r
         end) d +:+ "}"
  end.

(** [str] of a float, a list or a dict (for the last two, the JSON text
    stands in for Python's own spelling). *)
Definition repr_other (v : pyval) : string :=
  match v with
  | PFloat f => float_repr f
  | _ => json_dumps v
  end.

(** The generator: a 64-bit linear congruential step; [random()] takes
    the 53 high bits. *)
Definition lcg (g : Z) : Z :=
  (g * 6364136223846793005 + 1442695040888963407) mod 2 ^ 64.

Definition rng_random (g : Z) : float * Z :=
  let g' := lcg g in
  ((fz (Z.shiftr g' 11) / fz (2 ^ 53))%float, g').

Definition rng_randint (a b : Z) (g : Z) : Z * Z :=
  let g' := lcg g in
  (a + (Z.shiftr g' 33) mod (b - a + 1), g').

Definition runtime : PyRuntime :=
  Build_PyRuntime float_of_str int_of_str round_ndigits repr_other
                  json_dumps json_loads Z rng_random rng_randint.

End Ref.

(** ** Runs and observations used in the statements *)

(** The symbol, price and size of a published dict. *)
Definition tick_core (payload : pyval) : pyval * pyval * pyval :=
  match payload with
  | PDict d => (dict_get "symbol" d, dict_get "price" d, dict_get "size" d)
  | _ => (PNone, PNone, PNone)
  end.

(** The prices of the symbol [s] in a history, most recent first. *)
Definition prices_of (s : string) (hist : list pyval) : list pyval :=
  map (fun c : pyval * pyval * pyval => snd (fst c))
      (List.filter (fun c : pyval * pyval * pyval => py_eq_str (fst (fst c)) s)
                   (map tick_core hist)).

(** A dict of the inbound array is a trade event when its field [ev] is the
    string [T]. *)
Definition is_trade (d : list (string * pyval)) : Prop :=
  py_eq_str (dict_get "ev" d) "T" = true.


(** The symbol, price and size that [on_message] reads in a trade event. *)
Definition trade_symbol (d : list (string * pyval)) : pyval :=
  py_or (dict_get "sym" d) (dict_get "ticker" d).
Definition trade_price (d : list (string * pyval)) : pyval :=
  py_or (dict_get "p" d) (dict_get "price" d).
Definition trade_size (d : list (string * pyval)) : pyval :=
  py_or (py_or (dict_get "s" d) (dict_get "size" d)) (PInt 1).

Section Observations.
Context `{PyRuntime}.
Variable TICK_LIST_LEN : Z.
Variable E : env.

Local Open Scope io_scope.

(** [publish_tick(sym, price, size)] called for each (price, size) of a
    list in turn. *)
Fixpoint publish_seq (sym : pyval) (ticks : list (pyval * pyval)) : io unit :=
  match ticks with
  | [] => ret tt
  | (price, size) :: rest =>
      publish_tick TICK_LIST_LEN E sym price size "T" ;; publish_seq sym rest
  end.

(** [payload] is the dict [publish_tick] builds for the (price, size) [t],
    at some reading of the clock. *)
Definition is_tick_of (sym : pyval) (payload : pyval) (t : pyval * pyval) : Prop :=
  exists p n now,
    py_float (fst t) = Ok p /\ py_int (snd t) = Ok n /\
    payload = tick_payload sym p n now "T".

(** The latest entry of the symbol [s] and the head of its window agree:
    both are missing, or the window starts with the text of the entry. *)
Definition in_sync (m : gmap string Redis.rval) (s : string) : Prop :=
  (m !! ("latest:" +:+ s) = None /\ Redis.window ("ticks:" +:+ s) m = []) \/
  (exists d, m !! ("latest:" +:+ s) = Some (Redis.RStr d) /\
             head (Redis.window ("ticks:" +:+ s) m) = Some d).


(** Two runs, from [w1] to [w1'] and from [w2] to [w2'], have published
    the same symbols, prices and sizes in the same order. *)
Definition same_ticks (w1 w1' w2 w2' : world) : Prop :=
  exists new1 new2 : list pyval,
    published w1' = new1 ++ published w1 /\
    published w2' = new2 ++ published w2 /\
    map tick_core new1 = map tick_core new2.

(** A computation preserves the property [I] of the world when [I] holds
    after it, whether it returns or raises, as soon as [I] held before. *)
Definition preserves {A : Type} (I : world -> Prop) (c : io A) : Prop :=
  forall w r w', c w = (r, w') -> I w -> I w'.

(** The observations of the socket: the connections opened and the frames
    sent. *)
Definition socket (w : world) : nat * list string := (connects w, sent w).





End Observations.

(** Concrete worlds for the reference runtime. *)
Module Demo.

(** A clock that advances by one second at each reading. *)
Definition clock (n : nat) : datetime := Datetime 2024 1 2 3 4 (n mod 60) 0.

(** A server that answers every command. *)
Definition env_up : env := Env clock (fun _ => true).

(** An empty server, a generator seeded with [seed], nothing sent yet. *)
Definition fresh (seed : Z) : @world Ref.runtime :=
  @World Z ∅ 0 0 seed [] 0 [].

(** Three ticks published for AAPL with a capacity of 2. *)
Definition ticks3 : list (pyval * pyval) :=
  [(PInt 150, PInt 1); (PFloat 150.5, PInt 2); (PStr "151", PInt 3)].

Definition run3 : res unit * @world Ref.runtime :=
  publish_seq (H := Ref.runtime) 2 env_up (PStr "AAPL") ticks3 (fresh 42).

(** One tick published for AAPL with a capacity of 0. *)
Definition run_cap0 : res unit * @world Ref.runtime :=
  publish_seq (H := Ref.runtime) 0 env_up (PStr "AAPL") [(PInt 150, PInt 1)] (fresh 42).

(** One call of [publish_tick] with the default capacity. *)
Definition run1 : res unit * @world Ref.runtime :=
  publish_tick (H := Ref.runtime) 200 env_up (PStr "AAPL") (PInt 150) (PInt 1) "T"
               (fresh 42).

(** A JSON text written with apostrophes in place of the double quotes. *)
Fixpoint json_text (s : string) : string :=
  match s with
  | EmptyString => EmptyString
  | String c r => String (if Ascii.eqb c "'" then Ref.dquote else c) (json_text r)
  end.

(** A well-formed trade event, and a trade event whose price is text that
    [float] refuses. *)
Definition good_event : string := "{'ev':'T','sym':'AAPL','p':150.25,'s':10}".
Definition bad_event : string := "{'ev':'T','sym':'AAPL','p':'n/a'}".

Definition msg_good_bad : string := json_text ("[" +:+ good_event +:+ "," +:+ bad_event +:+ "]").
Definition msg_bad_good : string := json_text ("[" +:+ bad_event +:+ "," +:+ good_event +:+ "]").

Definition run_good_bad : res unit * @world Ref.runtime :=
  on_message (H := Ref.runtime) 200 env_up msg_good_bad (fresh 42).
Definition run_bad_good : res unit * @world Ref.runtime :=
  on_message (H := Ref.runtime) 200 env_up msg_bad_good (fresh 42).

(** A trade event whose symbol is in lower case with a space in front. *)
Definition msg_lower : string := json_text "[{'ev':'T','sym':' aapl','p':150.25}]".
Definition run_lower : res unit * @world Ref.runtime :=
  on_message (H := Ref.runtime) 200 env_up msg_lower (fresh 42).

(** The two events as [json.loads] returns them. *)
Definition good_dict : list (string * pyval) :=
  [("ev", PStr "T"); ("sym", PStr "AAPL"); ("p", PFloat 150.25); ("s", PInt 10)].
Definition bad_dict : list (string * pyval) :=
  [("ev", PStr "T"); ("sym", PStr "AAPL"); ("p", PStr "n/a")].

(** The well-formed event alone: as an element, and as a message. *)
Definition run_good_alone : res unit * @world Ref.runtime :=
  on_element (H := Ref.runtime) 200 env_up (PDict good_dict) (fresh 42).
Definition msg_good : string := json_text ("[" +:+ good_event +:+ "]").

(** A live session that opens, receives one message and an error, and then
    ends with an exception. *)
Definition session_crash : session :=
  Session true [WsOpen; WsMessage msg_good_bad; WsError] (Some WebSocketException).

(** The same tick published twice. *)
Definition run_twice : res unit * @world Ref.runtime :=
  publish_tick (H := Ref.runtime) 200 env_up (PStr "AAPL") (PInt 150) (PInt 1) "T"
               (snd run1).

(** A server that refuses the first three commands (the first call of
    [publish_tick]) and answers from then on. *)
Definition env_outage : env := Env clock (fun n => (3 <=? n)%nat).

(** Three rounds of the simulator for AAPL through that outage. *)
Definition run_outage : res (gmap string float) * @world Ref.runtime :=
  simulate_ticks (H := Ref.runtime) ["AAPL"] 200 env_outage 3 (fresh 42).

(** Two rounds of the simulator from the same seed, for AAPL alone and for
    AAPL followed by MSFT. *)
Definition run_sim_one : res (gmap string float) * @world Ref.runtime :=
  simulate_ticks (H := Ref.runtime) ["AAPL"] 200 env_up 2 (fresh 42).
Definition run_sim_two : res (gmap string float) * @world Ref.runtime :=
  simulate_ticks (H := Ref.runtime) ["AAPL"; "MSFT"] 200 env_up 2 (fresh 42).

(** A price in hundredths, as an integer. *)
Definition cents (v : pyval) : res Z :=
  match v with
  | PFloat x => int_of_float (x * 100)%float
  | _ => Raise TypeError
  end.

(** The same two rounds for AAPL alone with another clock and a capacity
    of 1. *)
Definition env_later : env := Env (fun n => Datetime 2025 6 7 8 9 (n mod 60) 5) (fun _ => true).
Definition run_sim_later : res (gmap string float) * @world Ref.runtime :=
  simulate_ticks (H := Ref.runtime) ["AAPL"] 1 env_later 2 (fresh 42).

(** One call of [publish_tick] with a capacity of -1. *)
Definition run_cap_neg : res unit * @world Ref.runtime :=
  publish_tick (H := Ref.runtime) (-1) env_up (PStr "AAPL") (PInt 150) (PInt 1) "T"
               (fresh 42).


(** An array with a number between two well-formed trade events. *)
Definition msg_good_number_good : string :=
  json_text ("[" +:+ good_event +:+ ", 5, " +:+ good_event +:+ "]").

(** Trade events with a zero price, without size, and without symbol. *)
Definition zero_price_dict : list (string * pyval) :=
  [("ev", PStr "T"); ("sym", PStr "AAPL"); ("p", PInt 0)].
Definition no_size_dict : list (string * pyval) :=
  [("ev", PStr "T"); ("sym", PStr "AAPL"); ("p", PFloat 150.25)].
Definition no_symbol_dict : list (string * pyval) :=
  [("ev", PStr "T"); ("p", PFloat 150.25)].
Definition run_no_size : res unit * @world Ref.runtime :=
  on_element (H := Ref.runtime) 200 env_up (PDict no_size_dict) (fresh 42).
Definition run_no_symbol : res unit * @world Ref.runtime :=
  on_element (H := Ref.runtime) 200 env_up (PDict no_symbol_dict) (fresh 42).

(** A server that refuses every command. *)
Definition env_down : env := Env clock (fun _ => false).


(** A live session that opens, receives one message, is closed by the
    server, and returns without exception. *)
Definition session_closed : session :=
  Session true [WsOpen; WsMessage msg_good_bad; WsClose] None.


(** A tick published under a symbol in lower case. *)
Definition run_lower_pub : res unit * @world Ref.runtime :=
  publish_tick (H := Ref.runtime) 200 env_up (PStr "aapl") (PInt 150) (PInt 1) "T"
               (fresh 42).

(** A yfinance service that knows AAPL only. *)
Definition yf (symbol : string) : yf_answer :=
  if String.eqb symbol "AAPL" then YfData (PStr "Apple Inc.") [189.5%float; 190.25%float]
  else YfRaise ConnectionError.


(** One step of the simulator for AAPL from a price of 100, and the prices
    it leaves. *)
Definition run_step : res (gmap string float) * @world Ref.runtime :=
  sim_symbol (H := Ref.runtime) 200 env_up "AAPL" {["AAPL" := 100%float]} (fresh 42).
Definition step_base : gmap string float :=
  match fst run_step with
  | Ok b => b
  | Raise _ => ∅
  end.

End Demo.

(** ** Further observations *)

(** An element of the inbound array that the handler passes over: a dict
    whose field [ev] is not the string [T]. *)
Definition skipped_event (msg : pyval) : bool :=
  match msg with
  | PDict d => negb (py_eq_str (dict_get "ev" d) "T")
  | _ => false
  end.

(** The symbols of the ticks of a history, in the order of the history. *)
Definition symbols_of (hist : list pyval) : list pyval :=
  map (fun p => fst (fst (tick_core p))) hist.


Section FurtherObservations.
Context `{PyRuntime}.

(** The key [latest:s] holds the text of a tick of the symbol [s]. *)
Definition has_latest_tick (m : gmap string Redis.rval) (s : string) : Prop :=
  exists p n now,
    m !! ("latest:" +:+ s)
    = Some (Redis.RStr (json_dumps (tick_payload (PStr s) p n now "T"))).

End FurtherObservations.


(** The number of commas of a text. *)
Fixpoint commas (v : string) : nat :=
  match v with
  | EmptyString => O
  | String c r => if Ascii.eqb c "," then S (commas r) else commas r
  end.

(** The value [fallback_yfinance] gives to [last] for an answer of the
    service. *)
Definition yf_last (a : yf_answer) : pyval :=
  match a with
  | YfData _ closes => match last closes with
                       | Some c => PFloat c
                       | None => PNone
                       end
  | YfRaise _ => PNone
  end.


(** A text that does not start with a blank. *)
Definition no_lead (s : string) : Prop :=
  match s with
  | EmptyString => True
  | String a _ => PyString.is_space a = false
  end.


(** ** Facts about the Redis commands *)

Ltac zbool :=
  repeat match goal with
  | H : (_ <? _) = true |- _ => apply Z.ltb_lt in H
  | H : (_ <? _) = false |- _ => apply Z.ltb_ge in H
  | H : (_ <=? _) = true |- _ => apply Z.leb_le in H
  | H : (_ <=? _) = false |- _ => apply Z.leb_gt in H
  | H : (_ || _) = true |- _ => apply orb_true_iff in H
  | H : (_ || _) = false |- _ => apply orb_false_iff in H; destruct H
  end.

Ltac case_if :=
  match goal with
  | |- context [if ?b then _ else _] =>
      lazymatch b with
      | context [if _ then _ else _] => fail
      | _ => destruct b eqn:?
      end
  end.

Module RedisFacts.
Import Redis.

Lemma trim_range_firstn (c : Z) (l : list string) :
  1 <= c -> trim_range 0 (c - 1) l = firstn (Z.to_nat c) l.
Proof.
  intros Hc. unfold trim_range. rewrite Z.ltb_irrefl.
  repeat case_if; zbool; try lia.
  - destruct l as [|x l]; [by rewrite firstn_nil|].
    simpl length in *. destruct_or?; zbool; lia.
  - rewrite skipn_O.
    replace (Z.to_nat (Z.of_nat (length l) - 1 - 0 + 1)) with (length l) by lia.
    rewrite firstn_all. symmetry. apply firstn_all2. lia.
  - rewrite skipn_O. f_equal. lia.
Qed.

Lemma trim_range_keep_all (l : list string) : trim_range 0 (-1) l = l.
Proof.
  unfold trim_range. rewrite Z.ltb_irrefl. change (-1 <? 0) with true.
  repeat case_if; zbool; try lia.
  - destruct l as [|x l]; [reflexivity|].
    simpl length in *. destruct_or?; zbool; lia.
  - replace (Z.to_nat (-1 + Z.of_nat (length l) - 0 + 1)) with (length l) by lia.
    rewrite skipn_O. apply firstn_all.
Qed.

(** For a capacity that is not negative the head of a list survives
    [LTRIM 0 (capacity - 1)]. *)
Lemma trim_range_head (c : Z) (x : string) (l : list string) :
  0 <= c -> exists l', trim_range 0 (c - 1) (x :: l) = x :: l'.
Proof.
  intros Hc. destruct (Z.eq_dec c 0) as [->|Hne].
  - exists l. apply trim_range_keep_all.
  - rewrite trim_range_firstn by lia.
    destruct (Z.to_nat c) as [|n] eqn:En; [lia|].
    exists (firstn n l). reflexivity.
Qed.


Lemma latest_ne_ticks (a b : string) : "latest:" +:+ a <> "ticks:" +:+ b.
Proof. discriminate. Qed.

Lemma latest_inj (a b : string) : "latest:" +:+ a = "latest:" +:+ b -> a = b.
Proof. intros Heq. cbv [String.app String.append] in Heq. by simplify_eq. Qed.

Lemma ticks_inj (a b : string) : "ticks:" +:+ a = "ticks:" +:+ b -> a = b.
Proof. intros Heq. cbv [String.app String.append] in Heq. by simplify_eq. Qed.

Lemma window_insert (k : string) (l : list string) (m : store) :
  window k (<[k := RList l]> m) = l.
Proof. unfold window. by rewrite lookup_insert_eq. Qed.

Lemma window_other (k k' : string) (v : rval) (m : store) :
  k' <> k -> window k (<[k' := v]> m) = window k m.
Proof. intros Hne. unfold window. by rewrite lookup_insert_ne. Qed.

(** The effect of [LPUSH] then [LTRIM] on the list of a key. *)
Lemma lpush_ltrim (k d : string) (a b : Z) (m m1 m2 : store) :
  lpush k d m = Ok m1 -> ltrim k a b m1 = Ok m2 ->
  window k m2 = trim_range a b (d :: window k m) /\
  forall k', k' <> k -> m2 !! k' = m !! k'.
Proof.
  unfold lpush, ltrim, window. intros H1 H2.
  assert (Hm1 : m1 = <[k := RList (d :: match m !! k with Some (RList l) => l | _ => [] end)]> m).
  { destruct (m !! k) as [[s|l]|]; congruence. }
  assert (Hw : match m !! k with Some (RList l) => l | _ => [] end
               = match m !! k with Some (RList l) => l | _ => [] end) by reflexivity.
  subst m1. rewrite lookup_insert_eq in H2.
  destruct (trim_range a b _) as [|y l'] eqn:Et; inversion H2; subst m2; split.
  - by rewrite lookup_delete_eq.
  - intros k' Hne. rewrite lookup_delete_ne by congruence. by rewrite lookup_insert_ne by congruence.
  - by rewrite lookup_insert_eq.
  - intros k' Hne. by rewrite !lookup_insert_ne by congruence.
Qed.
End RedisFacts.

(** ** Facts about [publish_tick] *)

Section PublishFacts.
Context `{PyRuntime}.
Variable TICK_LIST_LEN : Z.
Variable E : env.

Lemma bind_ok {A B : Type} (c : io A) (k : A -> io B) (w w' : world) (b : B) :
  bind c k w = (Ok b, w') ->
  exists a w1, c w = (Ok a, w1) /\ k a w1 = (Ok b, w').
Proof.
  unfold bind. destruct (c w) as [[a|e] w1]; [eauto | discriminate].
Qed.

Lemma bind_raise {A B : Type} (c : io A) (k : A -> io B) (w w' : world) (e : exn) :
  c w = (Raise e, w') -> bind c k w = (Raise e, w').
Proof. unfold bind. by intros ->. Qed.

Lemma bind_step {A B : Type} (c : io A) (k : A -> io B) (w w1 : world) (a : A) :
  c w = (Ok a, w1) -> bind c k w = k a w1.
Proof. unfold bind. by intros ->. Qed.

Lemma redis_cmd_ok f (w w' : world) :
  redis_cmd E f w = (Ok tt, w') ->
  redis_up E (ncmd w) = true /\
  exists m, f (db w) = Ok m /\ w' = set_db m (set_ncmd (S (ncmd w)) w).
Proof.
  unfold redis_cmd. destruct (redis_up E (ncmd w)); [|discriminate].
  destruct (f (db w)) as [m|e]; [|discriminate].
  intros [= <-]. eauto.
Qed.

(** What a call of [publish_tick] that returns has done: both
    conversions succeeded, the clock was read once, three commands were
    served, and only the two keys of the symbol changed. *)
Lemma publish_tick_ok (sym price size : pyval) (ev : string) (w w' : world) :
  publish_tick TICK_LIST_LEN E sym price size ev w = (Ok tt, w') ->
  exists p n,
    py_float price = Ok p /\ py_int size = Ok n /\
    let payload := tick_payload sym p n (utcnow E (nclk w)) ev in
    db w' !! latest_key sym = Some (Redis.RStr (json_dumps payload)) /\
    Redis.window (ticks_key sym) (db w') =
      Redis.trim_range 0 (TICK_LIST_LEN - 1)
        (json_dumps payload :: Redis.window (ticks_key sym) (db w)) /\
    (forall k, k <> latest_key sym -> k <> ticks_key sym -> db w' !! k = db w !! k) /\
    published w' = payload :: published w /\
    nclk w' = S (nclk w) /\ ncmd w' = (3 + ncmd w)%nat /\
    rng w' = rng w /\ sent w' = sent w /\ connects w' = connects w /\
    (forall i, (ncmd w <= i < ncmd w')%nat -> redis_up E i = true).
Proof.
  unfold publish_tick. intros Hrun.
  apply bind_ok in Hrun as (p & w1 & Hp & Hrun).
  apply bind_ok in Hrun as (n & w2 & Hn & Hrun).
  apply bind_ok in Hrun as (now & w3 & Hnow & Hrun).
  apply bind_ok in Hrun as ([] & w4 & Hset & Hrun).
  apply bind_ok in Hrun as ([] & w5 & Hpush & Hrun).
  apply bind_ok in Hrun as ([] & w6 & Htrim & Hrun).
  unfold lift in Hp, Hn. injection Hp as Hp <-. injection Hn as Hn <-.
  unfold read_clock in Hnow. injection Hnow as <- <-.
  apply redis_cmd_ok in Hset as (Hu1 & m1 & Hm1 & ->).
  apply redis_cmd_ok in Hpush as (Hu2 & m2 & Hm2 & ->).
  apply redis_cmd_ok in Htrim as (Hu3 & m3 & Hm3 & ->).
  unfold record_published in Hrun. injection Hrun as <-.
  injection Hm1 as <-. simpl in *.
  destruct (RedisFacts.lpush_ltrim _ _ _ _ _ _ _ Hm2 Hm3) as [Hwin Hoth].
  exists p, n. repeat split; try done.
  - rewrite Hoth by apply RedisFacts.latest_ne_ticks.
    unfold Redis.set. by rewrite lookup_insert_eq.
  - rewrite Hwin. f_equal. f_equal. unfold Redis.set.
    apply RedisFacts.window_other, RedisFacts.latest_ne_ticks.
  - intros k Hk1 Hk2. rewrite Hoth by done. unfold Redis.set.
    by rewrite lookup_insert_ne.
  - intros i Hi.
    assert (i = ncmd w \/ i = S (ncmd w) \/ i = S (S (ncmd w))) as [->|[->| ->]] by lia; done.
Qed.
End PublishFacts.

(** ** The latest entry and the window of a symbol *)

Section StoreClaims.
Context `{PyRuntime}.
Variable TICK_LIST_LEN : Z.
Variable E : env.

Lemma take_app_take {A : Type} (n : nat) (l k : list A) :
  take n (l ++ take n k) = take n (l ++ k).
Proof.
  rewrite !take_app, take_take. do 2 f_equal. lia.
Qed.

(** After a run of [publish_seq] the window of the symbol is the old
    window with the new texts in front, cut at the capacity. *)
Lemma publish_seq_window (sym : pyval) (ticks : list (pyval * pyval)) :
  1 <= TICK_LIST_LEN ->
  forall w w' : world,
    (length (Redis.window (ticks_key sym) (db w)) <= Z.to_nat TICK_LIST_LEN)%nat ->
    publish_seq TICK_LIST_LEN E sym ticks w = (Ok tt, w') ->
    exists new : list pyval,
      Forall2 (is_tick_of sym) (rev new) ticks /\
      published w' = new ++ published w /\
      Redis.window (ticks_key sym) (db w') =
        take (Z.to_nat TICK_LIST_LEN)
             (map json_dumps new ++ Redis.window (ticks_key sym) (db w)).
Proof.
  intros Hc. induction ticks as [|[price size] rest IH]; intros w w' Hlen Hrun.
  - injection Hrun as <-. exists []. repeat split; [constructor|]. simpl.
    symmetry. by apply firstn_all2.
  - simpl in Hrun. apply bind_ok in Hrun as ([] & w1 & Hpub & Hrun).
    apply publish_tick_ok in Hpub as (p & n & Hp & Hn & _ & Hwin & _ & Hhist & _).
    rewrite RedisFacts.trim_range_firstn in Hwin by done.
    apply IH in Hrun as (new & Hnew & Hpub & Hw).
    + exists (new ++ [tick_payload sym p n (utcnow E (nclk w)) "T"]).
      repeat split.
      * rewrite rev_app_distr. simpl. constructor; [|done].
        by exists p, n, (utcnow E (nclk w)).
      * rewrite Hpub, Hhist, <- app_assoc. reflexivity.
      * rewrite Hw, Hwin, take_app_take, map_app, <- app_assoc. reflexivity.
    + rewrite Hwin, length_take. lia.
Qed.

(** C3, as amended: for a capacity [TICK_LIST_LEN] of at least 1, after N
    ticks published for a symbol whose window did not exist, the window has
    length min(N, capacity) and holds the texts of the most recently
    published ticks, most recent first (the oldest are the ones dropped);
    and after any publish the window is no longer than the capacity. *)
Theorem recent_window_bounded
    (sym : pyval) (ticks : list (pyval * pyval)) (w w' : world) :
  1 <= TICK_LIST_LEN ->
  db w !! ticks_key sym = None ->
  publish_seq TICK_LIST_LEN E sym ticks w = (Ok tt, w') ->
  let n := length ticks in
  let c := Z.to_nat TICK_LIST_LEN in
  let win := Redis.window (ticks_key sym) (db w') in
  length win = Nat.min n c /\
  (exists new : list pyval,
     Forall2 (is_tick_of sym) (rev new) ticks /\
     published w' = new ++ published w /\
     win = map json_dumps (take c new)) /\
  (forall price size ev (w1 w2 : world),
     publish_tick TICK_LIST_LEN E sym price size ev w1 = (Ok tt, w2) ->
     (length (Redis.window (ticks_key sym) (db w2)) <= c)%nat).
Proof.
  intros Hc Hfresh Hrun n c win.
  assert (Hold : Redis.window (ticks_key sym) (db w) = []).
  { unfold Redis.window. by rewrite Hfresh. }
  apply publish_seq_window in Hrun as (new & Hnew & Hpub & Hw);
    [|done|rewrite Hold; simpl; lia].
  rewrite Hold, app_nil_r in Hw. subst win. fold c in Hw.
  assert (Hlen : length new = n).
  { apply Forall2_length in Hnew. by rewrite length_rev in Hnew. }
  split; [|split].
  - rewrite Hw, length_take, length_map. lia.
  - exists new. repeat split; try done. rewrite Hw. apply firstn_map.
  - intros price size ev w1 w2 Hpub1.
    apply publish_tick_ok in Hpub1 as (p & k & _ & _ & _ & Hwin & _).
    rewrite Hwin, RedisFacts.trim_range_firstn, length_take by done. lia.
Qed.

(** C9, as amended: when the capacity [TICK_LIST_LEN] is not negative and
    a call of [publish_tick] returns, the value under [latest:SYMBOL] is the
    first element of the list [ticks:SYMBOL]; and the call leaves every other
    symbol as much in agreement as it was. *)
Theorem latest_is_head_of_window
    (sym price size : pyval) (ev : string) (w w' : world) :
  0 <= TICK_LIST_LEN ->
  publish_tick TICK_LIST_LEN E sym price size ev w = (Ok tt, w') ->
  (exists d, db w' !! latest_key sym = Some (Redis.RStr d) /\
             head (Redis.window (ticks_key sym) (db w')) = Some d) /\
  (forall s, s <> py_str sym -> in_sync (db w) s -> in_sync (db w') s).
Proof.
  intros Hc Hrun.
  apply publish_tick_ok in Hrun as (p & n & _ & _ & Hlatest & Hwin & Hoth & _).
  split.
  - eexists. split; [exact Hlatest|].
    destruct (RedisFacts.trim_range_head TICK_LIST_LEN
                (json_dumps (tick_payload sym p n (utcnow E (nclk w)) ev))
                (Redis.window (ticks_key sym) (db w)) Hc) as [l' Hl'].
    by rewrite Hwin, Hl'.
  - intros s Hs Hsync.
    assert (Hl : db w' !! ("latest:" +:+ s) = db w !! ("latest:" +:+ s)).
    { apply Hoth.
      - intros Heq. apply Hs. by apply RedisFacts.latest_inj.
      - apply RedisFacts.latest_ne_ticks. }
    assert (Ht : db w' !! ("ticks:" +:+ s) = db w !! ("ticks:" +:+ s)).
    { apply Hoth.
      - intros Heq. symmetry in Heq. by apply RedisFacts.latest_ne_ticks in Heq.
      - intros Heq. apply Hs. by apply RedisFacts.ticks_inj. }
    unfold in_sync, Redis.window in *. by rewrite Hl, Ht.
Qed.

End StoreClaims.

Lemma pair_of_fst {A B : Type} (x : A * B) (a : A) : fst x = a -> x = (a, snd x).
Proof. destruct x. simpl. by intros ->. Qed.

(** C3, witness: three ticks published for AAPL with a capacity of 2 leave
    a window of two elements. *)
Lemma recent_window_bounded_witness :
  length (Redis.window (ticks_key (H := Ref.runtime) (PStr "AAPL")) (db (snd Demo.run3)))
  = Nat.min (length Demo.ticks3) (Z.to_nat 2).
Proof.
  refine (proj1 (recent_window_bounded (H := Ref.runtime) 2 Demo.env_up
                   (PStr "AAPL") Demo.ticks3 (Demo.fresh 42) (snd Demo.run3) _ _ _)).
  - lia.
  - vm_compute. reflexivity.
  - apply pair_of_fst. vm_compute. reflexivity.
Defined.

(** C3, as stated, fails at capacity 0: [LTRIM key 0 -1] keeps the whole
    list, so one published tick leaves a window of length 1, which is not
    min(1, 0) and exceeds the capacity. *)
Lemma recent_window_capacity_zero :
  fst Demo.run_cap0 = Ok tt /\
  length (Redis.window "ticks:AAPL" (db (snd Demo.run_cap0))) = 1%nat /\
  length (Redis.window "ticks:AAPL" (db (snd Demo.run_cap0))) <> Nat.min 1 (Z.to_nat 0) /\
  ~ (length (Redis.window "ticks:AAPL" (db (snd Demo.run_cap0))) <= Z.to_nat 0)%nat.
Proof.
  assert (Hlen : length (Redis.window "ticks:AAPL" (db (snd Demo.run_cap0))) = 1%nat)
    by (vm_compute; reflexivity).
  split; [vm_compute; reflexivity|].
  split; [exact Hlen|].
  split; intros Hc; rewrite Hlen in Hc; simpl in Hc; lia.
Qed.

(** C9, as stated, fails for a negative capacity: with [TICK_LIST_LEN] at
    -1 the call returns, [latest:AAPL] holds the tick, and [LTRIM key 0 -2]
    has emptied the list, so that [ticks:AAPL] has no first element. *)
Lemma negative_capacity_empties_window :
  fst Demo.run_cap_neg = Ok tt /\
  (exists d, db (snd Demo.run_cap_neg) !! "latest:AAPL" = Some (Redis.RStr d)) /\
  db (snd Demo.run_cap_neg) !! "ticks:AAPL" = None /\
  head (Redis.window "ticks:AAPL" (db (snd Demo.run_cap_neg))) = None.
Proof.
  split; [vm_compute; reflexivity|].
  split; [eexists; vm_compute; reflexivity|].
  split; vm_compute; reflexivity.
Qed.

(** C9, witness: one tick published for AAPL. *)
Lemma latest_is_head_of_window_witness :
  exists d,
    db (snd Demo.run1) !! latest_key (H := Ref.runtime) (PStr "AAPL") = Some (Redis.RStr d) /\
    head (Redis.window (ticks_key (H := Ref.runtime) (PStr "AAPL")) (db (snd Demo.run1))) = Some d.
Proof.
  refine (proj1 (latest_is_head_of_window (H := Ref.runtime) 200 Demo.env_up
                   (PStr "AAPL") (PInt 150) (PInt 1) "T" (Demo.fresh 42)
                   (snd Demo.run1) _ _)).
  - lia.
  - apply pair_of_fst. vm_compute. reflexivity.
Defined.

(** ** The message handler *)

Section HandlerClaims.
Context `{PyRuntime}.
Variable TICK_LIST_LEN : Z.
Variable E : env.

Lemma get_or_dict (d : list (string * pyval)) (k1 k2 : string) :
  get_or (PDict d) k1 k2 = Ok (py_or (dict_get k1 d) (dict_get k2 d)).
Proof. unfold get_or, py_or. simpl. by destruct (truthy (dict_get k1 d)). Qed.

(** A trade event is handed to [publish_tick]; any other dict is skipped. *)
Lemma on_element_trade (d : list (string * pyval)) (w : world) :
  is_trade d ->
  on_element TICK_LIST_LEN E (PDict d) w =
  publish_tick TICK_LIST_LEN E (trade_symbol d) (trade_price d) (trade_size d) "T" w.
Proof.
  unfold is_trade, on_element. intros Hev.
  unfold bind at 1. simpl. rewrite Hev.
  rewrite !get_or_dict. unfold bind, lift. simpl.
  reflexivity.
Qed.

Lemma on_element_other (d : list (string * pyval)) (w : world) :
  py_eq_str (dict_get "ev" d) "T" = false ->
  on_element TICK_LIST_LEN E (PDict d) w = (Ok tt, w).
Proof.
  unfold on_element. intros Hev. unfold bind at 1. simpl. by rewrite Hev.
Qed.

(** A price that [float] refuses makes [publish_tick] raise at once. *)
Lemma publish_tick_bad_price (sym price size : pyval) (ev : string) (e : exn) (w : world) :
  py_float price = Raise e ->
  publish_tick TICK_LIST_LEN E sym price size ev w = (Raise e, w).
Proof. unfold publish_tick, bind, lift. by intros ->. Qed.

Lemma on_message_array (message : string) (data : list pyval) (w : world) :
  json_loads message = Some (PList data) ->
  on_message TICK_LIST_LEN E message w =
  match on_elements TICK_LIST_LEN E data w with
  | (Ok a, w') => (Ok a, w')
  | (Raise _, w') => (Ok tt, w')
  end.
Proof.
  unfold on_message, try_except. intros ->.
  by destruct (on_elements TICK_LIST_LEN E data w) as [[[]|e] w'].
Qed.

(** [on_message] never raises. *)
Lemma on_message_total (message : string) (w : world) :
  fst (on_message TICK_LIST_LEN E message w) = Ok tt.
Proof.
  unfold on_message, try_except.
  destruct (json_loads message) as [[| | | | |data|]|]; try reflexivity.
  by destruct (on_elements TICK_LIST_LEN E data w) as [[[]|e] w'].
Qed.

(** C1, as amended: for an array of one well-formed trade event and one
    trade event whose price [float] refuses (missing, or not a number), the
    handler publishes exactly one tick when the well-formed event comes
    first, and none when it comes second: the exception is caught around the
    whole loop, so the elements after the failing one are dropped.  In both
    orders the handler returns normally. *)
Theorem batch_stops_at_first_failure
    (m_good_bad m_bad_good : string) (good bad : list (string * pyval))
    (e : exn) (w w1 : world) :
  is_trade good -> is_trade bad ->
  on_element TICK_LIST_LEN E (PDict good) w = (Ok tt, w1) ->
  py_float (trade_price bad) = Raise e ->
  json_loads m_good_bad = Some (PList [PDict good; PDict bad]) ->
  json_loads m_bad_good = Some (PList [PDict bad; PDict good]) ->
  on_message TICK_LIST_LEN E m_good_bad w = (Ok tt, w1) /\
  (exists payload, published w1 = payload :: published w) /\
  on_message TICK_LIST_LEN E m_bad_good w = (Ok tt, w).
Proof.
  intros Hgood Hbad Hpub Hprice Hgb Hbg.
  assert (Hfail : forall w0, on_element TICK_LIST_LEN E (PDict bad) w0 = (Raise e, w0)).
  { intros w0. rewrite on_element_trade by done. by apply publish_tick_bad_price. }
  split; [|split].
  - rewrite (on_message_array _ _ _ Hgb). simpl.
    rewrite (bind_step _ _ _ _ _ Hpub).
    by rewrite (bind_raise _ _ _ _ _ (Hfail w1)).
  - rewrite on_element_trade in Hpub by done.
    apply publish_tick_ok in Hpub as (p & n & _ & _ & _ & _ & _ & Hhist & _).
    eauto.
  - rewrite (on_message_array _ _ _ Hbg). simpl.
    by rewrite (bind_raise _ _ _ _ _ (Hfail w)).
Qed.

(** C5, as amended: the tick published for a trade event carries the symbol
    as the provider sent it ([sym], or [ticker] when [sym] is missing or
    empty), neither upper-cased nor trimmed, and is stored under the keys
    made of that same text. *)
Theorem symbol_published_verbatim
    (message : string) (d : list (string * pyval)) (w w' : world) :
  is_trade d ->
  json_loads message = Some (PList [PDict d]) ->
  on_element TICK_LIST_LEN E (PDict d) w = (Ok tt, w') ->
  on_message TICK_LIST_LEN E message w = (Ok tt, w') /\
  exists payload,
    published w' = payload :: published w /\
    py_get payload "symbol" = Ok (trade_symbol d) /\
    db w' !! ("latest:" +:+ py_str (trade_symbol d))
      = Some (Redis.RStr (json_dumps payload)).
Proof.
  intros Hev Hmsg Hrun. split.
  - rewrite (on_message_array _ _ _ Hmsg). simpl.
    rewrite (bind_step _ _ _ _ _ Hrun). reflexivity.
  - rewrite on_element_trade in Hrun by done.
    apply publish_tick_ok in Hrun as (p & n & _ & _ & Hlatest & Hwin & _ & Hhist & _).
    eexists. split; [exact Hhist|]. split; [reflexivity|]. exact Hlatest.
Qed.

End HandlerClaims.

(** C1, witness: the two orders of a well-formed trade and a trade whose
    price is the text n/a. *)
Lemma batch_stops_at_first_failure_witness :
  on_message (H := Ref.runtime) 200 Demo.env_up Demo.msg_good_bad (Demo.fresh 42)
    = (Ok tt, snd Demo.run_good_alone) /\
  (exists payload,
     published (snd Demo.run_good_alone) = payload :: published (Demo.fresh 42)) /\
  on_message (H := Ref.runtime) 200 Demo.env_up Demo.msg_bad_good (Demo.fresh 42)
    = (Ok tt, Demo.fresh 42).
Proof.
  apply (batch_stops_at_first_failure (H := Ref.runtime) 200 Demo.env_up
           Demo.msg_good_bad Demo.msg_bad_good Demo.good_dict Demo.bad_dict
           ValueError (Demo.fresh 42) (snd Demo.run_good_alone)).
  - reflexivity.
  - reflexivity.
  - apply pair_of_fst. vm_compute. reflexivity.
  - vm_compute. reflexivity.
  - vm_compute. reflexivity.
  - vm_compute. reflexivity.
Defined.

(** C1, as stated, fails when the malformed event comes first: the array
    holds one well-formed trade and one trade with a non-numeric price, and
    no tick is published. *)
Lemma malformed_first_publishes_nothing :
  Ref.json_loads Demo.msg_bad_good
    = Some (PList [PDict Demo.bad_dict; PDict Demo.good_dict]) /\
  fst Demo.run_bad_good = Ok tt /\
  published (snd Demo.run_bad_good) = [] /\
  db (snd Demo.run_bad_good) = ∅.
Proof. repeat split; vm_compute; reflexivity. Qed.

(** C5, witness: a trade event for AAPL. *)
Lemma symbol_published_verbatim_witness :
  exists payload,
    published (snd Demo.run_good_alone) = payload :: published (Demo.fresh 42) /\
    py_get payload "symbol" = Ok (trade_symbol Demo.good_dict) /\
    db (snd Demo.run_good_alone)
      !! ("latest:" +:+ py_str (H := Ref.runtime) (trade_symbol Demo.good_dict))
      = Some (Redis.RStr (json_dumps (PyRuntime := Ref.runtime) payload)).
Proof.
  refine (proj2 (symbol_published_verbatim (H := Ref.runtime) 200 Demo.env_up
                   Demo.msg_good Demo.good_dict (Demo.fresh 42)
                   (snd Demo.run_good_alone) _ _ _)).
  - reflexivity.
  - vm_compute. reflexivity.
  - apply pair_of_fst. vm_compute. reflexivity.
Defined.

(** C5, as stated, fails: a trade event whose symbol is in lower case with a
    space in front is published under that very text, which is not its
    upper-cased and trimmed form, and nothing is stored for AAPL. *)
Lemma symbol_not_normalized :
  fst Demo.run_lower = Ok tt /\
  (exists payload,
     published (snd Demo.run_lower) = [payload] /\
     py_get payload "symbol" = Ok (PStr " aapl")) /\
  PyString.upper (PyString.strip " aapl") = "AAPL" /\
  " aapl" <> PyString.upper (PyString.strip " aapl") /\
  db (snd Demo.run_lower) !! "latest:AAPL" = None.
Proof.
  split; [vm_compute; reflexivity|].
  split; [eexists; split; vm_compute; reflexivity|].
  split; [reflexivity|].
  split; [vm_compute; discriminate|vm_compute; reflexivity].
Qed.

(** ** Properties kept by the feeds *)

Section Invariants.
Context `{PyRuntime}.
Variable POLY_KEY : option string.
Variable WATCHLIST : list string.
Variable TICK_LIST_LEN : Z.
Variable E : env.
Variable I : world -> Prop.

Lemma preserves_bind {A B : Type} (c : io A) (k : A -> io B) :
  preserves I c -> (forall a, preserves I (k a)) -> preserves I (bind c k).
Proof.
  intros Hc Hk w r w'. unfold bind.
  destruct (c w) as [[a|e] w1] eqn:Hcw.
  - intros Hka HI. eapply Hk; eauto.
  - intros [= <- <-] HI. eauto.
Qed.

Lemma preserves_try {A : Type} (c : io A) (h : exn -> io A) :
  preserves I c -> (forall e, preserves I (h e)) -> preserves I (try_except c h).
Proof.
  intros Hc Hh w r w'. unfold try_except.
  destruct (c w) as [[a|e] w1] eqn:Hcw.
  - intros [= <- <-] HI. eauto.
  - intros Hhe HI. eapply Hh; eauto.
Qed.

Lemma preserves_ret {A : Type} (a : A) : preserves I (ret a).
Proof. by intros w r w' [= <- <-]. Qed.

Lemma preserves_raise {A : Type} (e : exn) : preserves I (@raise _ A e).
Proof. by intros w r w' [= <- <-]. Qed.

Lemma preserves_lift {A : Type} (x : res A) : preserves I (lift x).
Proof. by intros w r w' [= <- <-]. Qed.

(** The simulator and the message handler act on the world through the
    generator and [publish_tick] only. *)
Hypothesis I_draw :
  forall (A : Type) (f : rng_state -> A * rng_state), preserves I (draw f).
Hypothesis I_publish :
  forall sym price size ev,
    preserves I (publish_tick TICK_LIST_LEN E sym price size ev).

Lemma preserves_init_base (wl : list string) (base : gmap string float) :
  preserves I (init_base wl base).
Proof.
  revert base. induction wl as [|s rest IH]; intros base; simpl.
  - apply preserves_ret.
  - apply preserves_bind; [apply I_draw|intros u; apply IH].
Qed.

Lemma preserves_sim_symbol (s : string) (base : gmap string float) :
  preserves I (sim_symbol TICK_LIST_LEN E s base).
Proof.
  unfold sim_symbol. destruct (base !! s); [|apply preserves_raise].
  repeat first [ apply I_publish | apply I_draw | apply preserves_ret
               | apply preserves_bind; [|intros ?] ].
Qed.

Lemma preserves_sim_round (wl : list string) (base : gmap string float) :
  preserves I (sim_round TICK_LIST_LEN E wl base).
Proof.
  revert base. induction wl as [|s rest IH]; intros base; simpl.
  - apply preserves_ret.
  - apply preserves_bind; [apply preserves_sim_symbol|intros b; apply IH].
Qed.

Lemma preserves_sim_loop (rounds : nat) (base : gmap string float) :
  preserves I (sim_loop WATCHLIST TICK_LIST_LEN E rounds base).
Proof.
  revert base. induction rounds as [|k IH]; intros base; simpl.
  - apply preserves_ret.
  - apply preserves_bind; [apply preserves_sim_round|intros b; apply IH].
Qed.

Lemma preserves_simulate_ticks (rounds : nat) :
  preserves I (simulate_ticks WATCHLIST TICK_LIST_LEN E rounds).
Proof.
  unfold simulate_ticks.
  apply preserves_bind; [apply preserves_init_base|intros b; apply preserves_sim_loop].
Qed.

Lemma preserves_on_elements (data : list pyval) :
  preserves I (on_elements TICK_LIST_LEN E data).
Proof.
  induction data as [|msg rest IH]; simpl; [apply preserves_ret|].
  apply preserves_bind; [|intros _; apply IH].
  unfold on_element. apply preserves_bind; [apply preserves_lift|intros ev].
  destruct (py_eq_str ev "T"); [|apply preserves_ret].
  repeat first [ apply I_publish | apply preserves_lift
               | apply preserves_bind; [|intros ?] ].
Qed.

Lemma preserves_on_message (message : string) :
  preserves I (on_message TICK_LIST_LEN E message).
Proof.
  unfold on_message. apply preserves_try; [|intros e; apply preserves_ret].
  destruct (json_loads message) as [[| | | | |data|]|];
    try apply preserves_ret; [apply preserves_on_elements|apply preserves_raise].
Qed.

(** The live client also writes to the socket and opens a connection. *)
Hypothesis I_send : forall frame, preserves I (ws_send frame).
Hypothesis I_connect : preserves I connect.

Lemma preserves_on_open : preserves I (on_open POLY_KEY WATCHLIST).
Proof.
  unfold on_open. apply preserves_bind; [apply I_send|intros _].
  induction WATCHLIST as [|s rest IH]; simpl; [apply preserves_ret|].
  apply preserves_bind; [apply I_send|intros _; apply IH].
Qed.

Lemma preserves_dispatch_all (evs : list ws_event) :
  preserves I (dispatch_all POLY_KEY WATCHLIST TICK_LIST_LEN E evs).
Proof.
  induction evs as [|ev rest IH]; simpl; [apply preserves_ret|].
  apply preserves_bind; [|intros _; apply IH].
  destruct ev as [|m| |]; simpl; try apply preserves_ret.
  - apply preserves_on_open.
  - apply preserves_on_message.
Qed.


End Invariants.

(** ** The WebSocket client and the supervisor *)

Section FeedClaims.
Context `{PyRuntime}.
Variable POLY_KEY : option string.
Variable WATCHLIST : list string.
Variable TICK_LIST_LEN : Z.
Variable E : env.

(** What [publish_tick] leaves alone, however it ends. *)
Lemma publish_tick_frame (sym price size : pyval) (ev : string) (w w' : world) r :
  publish_tick TICK_LIST_LEN E sym price size ev w = (r, w') ->
  rng w' = rng w /\ sent w' = sent w /\ connects w' = connects w /\
  (nclk w <= nclk w')%nat.
Proof.
  unfold publish_tick, bind, lift, read_clock, redis_cmd, record_published.
  destruct (py_float price); [|by intros [= <- <-]].
  destruct (py_int size); [|by intros [= <- <-]].
  simpl.
  repeat match goal with
         | |- context [if ?b then _ else _] => destruct b
         | |- context [match Redis.lpush ?a ?b ?c with _ => _ end] =>
             destruct (Redis.lpush a b c)
         | |- context [match Redis.ltrim ?a ?b ?c ?d with _ => _ end] =>
             destruct (Redis.ltrim a b c d)
         end; simpl;
    intros [= <- <-]; simpl; repeat split; lia.
Qed.

Lemma keeps_draw {A : Type} (f : rng_state -> A * rng_state) (v : nat * list string) :
  preserves (fun w => socket w = v) (draw f).
Proof.
  intros w r w'. unfold draw. destruct (f (rng w)). by intros [= <- <-].
Qed.

Lemma keeps_publish_tick (sym price size : pyval) (ev : string) (v : nat * list string) :
  preserves (fun w => socket w = v) (publish_tick TICK_LIST_LEN E sym price size ev).
Proof.
  intros w r w' Hrun <-.
  apply publish_tick_frame in Hrun as (_ & Hs & Hc & _).
  unfold socket. by rewrite Hs, Hc.
Qed.

(** The simulator never touches the socket. *)
Lemma simulate_ticks_socket (rounds : nat) (w w' : world) r :
  simulate_ticks WATCHLIST TICK_LIST_LEN E rounds w = (r, w') -> socket w' = socket w.
Proof.
  intros Hrun.
  eapply (preserves_simulate_ticks WATCHLIST TICK_LIST_LEN E
            (fun w0 => socket w0 = socket w)); eauto.
  - intros A f. by apply keeps_draw.
  - intros. apply keeps_publish_tick.
Qed.

(** The callbacks open no connection. *)
Lemma dispatch_all_connects (evs : list ws_event) (w w' : world) r :
  dispatch_all POLY_KEY WATCHLIST TICK_LIST_LEN E evs w = (r, w') ->
  connects w' = connects w.
Proof.
  intros Hrun.
  eapply (preserves_dispatch_all POLY_KEY WATCHLIST TICK_LIST_LEN E
            (fun w0 => connects w0 = connects w)); eauto.
  - intros sym price size ev w0 r0 w0' Hpub <-.
    by apply publish_tick_frame in Hpub as (_ & _ & Hc & _).
  - by intros frame w0 r0 w0' [= <- <-].
Qed.

Lemma subscribe_all_sent (wl : list string) (w : world) :
  subscribe_all wl w =
  (Ok tt, set_sent (sent w ++ map subscribe_frame wl) w).
Proof.
  revert w. induction wl as [|s rest IH]; intros w.
  - simpl. unfold ret, set_sent. rewrite app_nil_r. by destruct w.
  - simpl. unfold bind, ws_send. rewrite IH. unfold set_sent. simpl.
    by rewrite <- app_assoc.
Qed.

Lemma on_open_sent (w : world) :
  on_open POLY_KEY WATCHLIST w =
  (Ok tt, set_sent (sent w ++ auth_frame POLY_KEY :: map subscribe_frame WATCHLIST) w).
Proof.
  unfold on_open, bind, ws_send. rewrite subscribe_all_sent.
  unfold set_sent. simpl. by rewrite <- app_assoc.
Qed.

(** C7: [on_open] writes to the socket, after what was already sent, one
    authentication frame carrying the credential and then one subscription
    frame per entry of the Watchlist, in the order of the Watchlist, each for
    the channel [T.] followed by the symbol; it does nothing else. *)
Theorem on_open_frames (key : string) (w : world) :
  on_open (Some key) WATCHLIST w =
  (Ok tt,
   set_sent
     (sent w ++
      json_dumps (PDict [("action", PStr "auth"); ("params", PStr key)]) ::
      map (fun s => json_dumps (PDict [("action", PStr "subscribe");
                                       ("params", PStr ("T." +:+ s))]))
          WATCHLIST)
     w).
Proof.
  unfold on_open, bind, ws_send. rewrite subscribe_all_sent.
  unfold set_sent. simpl. by rewrite <- app_assoc.
Qed.

(** The callbacks never raise. *)
Lemma dispatch_all_returns (evs : list ws_event) (w : world) :
  fst (dispatch_all POLY_KEY WATCHLIST TICK_LIST_LEN E evs w) = Ok tt.
Proof.
  revert w. induction evs as [|ev rest IH]; intros w; simpl; [reflexivity|].
  unfold bind.
  assert (Hev : fst (dispatch POLY_KEY WATCHLIST TICK_LIST_LEN E ev w) = Ok tt).
  { destruct ev as [|m| |]; simpl; try reflexivity.
    - by rewrite (on_open_sent w).
    - apply on_message_total. }
  destruct (dispatch POLY_KEY WATCHLIST TICK_LIST_LEN E ev w) as [r w1].
  simpl in Hev. subst r. apply IH.
Qed.

(** C4: with a credential configured, a live client that raises, at its
    start (the WebSocket module cannot be imported) or at the end of its run,
    has opened at most one connection; the supervisor then runs the
    simulator from the world the client left, for as many rounds as one cares
    to observe, and no further connection is ever opened. *)
Theorem fallback_is_one_shot (s : session) (rounds : nat) (w : world) :
  truthy (poly_key POLY_KEY) = true ->
  installed s = false \/ (exists e, failure s = Some e) ->
  exists e w1,
    live_feed POLY_KEY WATCHLIST TICK_LIST_LEN E s w = (Raise e, w1) /\
    (connects w1 <= S (connects w))%nat /\
    main POLY_KEY WATCHLIST TICK_LIST_LEN E s rounds w =
      bind (simulate_ticks WATCHLIST TICK_LIST_LEN E rounds) (fun _ => ret tt) w1 /\
    connects (snd (main POLY_KEY WATCHLIST TICK_LIST_LEN E s rounds w)) = connects w1.
Proof.
  intros Hkey Hfail.
  assert (Hlive : exists e w1,
             live_feed POLY_KEY WATCHLIST TICK_LIST_LEN E s w = (Raise e, w1) /\
             (connects w1 <= S (connects w))%nat).
  { unfold live_feed. destruct (installed s) eqn:Hinst.
    - destruct Hfail as [|[e He]]; [discriminate|]. rewrite He.
      unfold bind at 1. unfold connect.
      pose proof (dispatch_all_returns (events s) (set_connects (S (connects w)) w)) as Hret.
      pose proof (dispatch_all_connects (events s) (set_connects (S (connects w)) w)) as Hkeep.
      unfold bind.
      destruct (dispatch_all POLY_KEY WATCHLIST TICK_LIST_LEN E (events s) _) as [r w1].
      simpl in Hret. subst r. exists e, w1. split; [reflexivity|].
      rewrite (Hkeep _ _ eq_refl). simpl. lia.
    - exists ImportError, w. split; [reflexivity|lia]. }
  destruct Hlive as (e & w1 & Hlive & Hconn).
  exists e, w1. split; [exact Hlive|]. split; [exact Hconn|].
  assert (Hmain : main POLY_KEY WATCHLIST TICK_LIST_LEN E s rounds w =
                  bind (simulate_ticks WATCHLIST TICK_LIST_LEN E rounds)
                       (fun _ => ret tt) w1).
  { unfold main. rewrite Hkey. unfold try_except. by rewrite Hlive. }
  split; [exact Hmain|].
  rewrite Hmain. unfold bind.
  destruct (simulate_ticks WATCHLIST TICK_LIST_LEN E rounds w1) as [[b|e'] w2] eqn:Hrun;
    apply simulate_ticks_socket in Hrun; by injection Hrun.
Qed.

End FeedClaims.

(** C4, witness: a credential is set and the live session ends with an
    exception after one message. *)
Lemma fallback_is_one_shot_witness :
  exists e w1,
    live_feed (H := Ref.runtime) (Some "key") default_watchlist 200 Demo.env_up
              Demo.session_crash (Demo.fresh 42) = (Raise e, w1) /\
    (connects w1 <= S (connects (Demo.fresh 42)))%nat /\
    main (H := Ref.runtime) (Some "key") default_watchlist 200 Demo.env_up
         Demo.session_crash 2 (Demo.fresh 42) =
      bind (simulate_ticks (H := Ref.runtime) default_watchlist 200 Demo.env_up 2)
           (fun _ => ret tt) w1 /\
    connects (snd (main (H := Ref.runtime) (Some "key") default_watchlist 200
                        Demo.env_up Demo.session_crash 2 (Demo.fresh 42)))
      = connects w1.
Proof.
  apply (fallback_is_one_shot (H := Ref.runtime) (Some "key") default_watchlist 200
           Demo.env_up Demo.session_crash 2 (Demo.fresh 42)).
  - reflexivity.
  - right. exists WebSocketException. reflexivity.
Defined.

(** ** The reader of the dashboard *)

Section ReaderClaims.
Context `{PyRuntime}.
Variable TICK_LIST_LEN : Z.
Variable E : env.

(** What [get_latest_from_redis] returns when the server answers and the
    key holds a text that [json.loads] accepts. *)
Lemma get_latest_hit (symbol d : string) (v : pyval) (w : world) :
  redis_up E (ncmd w) = true ->
  db w !! ("latest:" +:+ PyString.upper symbol) = Some (Redis.RStr d) ->
  d <> "" ->
  json_loads d = Some v ->
  fst (get_latest_from_redis E symbol w) = Ok v.
Proof.
  intros Hup Hget Hne Hload.
  unfold get_latest_from_redis, try_except, bind, redis_get, Redis.get.
  rewrite Hup, Hget. simpl.
  apply String.eqb_neq in Hne. rewrite Hne. simpl. by rewrite Hload.
Qed.

(** C8: after the same tick (same symbol, price and size) was published
    twice, the key [latest:SYMBOL] holds the JSON text of that tick, with the
    time of the second call; and when the server answers and this text reads
    back as the tick, the reader of the dashboard, which asks for the symbol
    in upper case, returns that tick for a symbol that is in upper case. *)
Theorem latest_overwrite_idempotent
    (sym : string) (price size : pyval) (p : float) (n : Z) (w w1 w2 : world) :
  py_float price = Ok p ->
  py_int size = Ok n ->
  publish_tick TICK_LIST_LEN E (PStr sym) price size "T" w = (Ok tt, w1) ->
  publish_tick TICK_LIST_LEN E (PStr sym) price size "T" w1 = (Ok tt, w2) ->
  Redis.get ("latest:" +:+ sym) (db w2)
    = Ok (Some (json_dumps (tick_payload (PStr sym) p n (utcnow E (nclk w1)) "T"))) /\
  (PyString.upper sym = sym ->
   redis_up E (ncmd w2) = true ->
   json_dumps (tick_payload (PStr sym) p n (utcnow E (nclk w1)) "T") <> "" ->
   json_loads (json_dumps (tick_payload (PStr sym) p n (utcnow E (nclk w1)) "T"))
     = Some (tick_payload (PStr sym) p n (utcnow E (nclk w1)) "T") ->
   fst (get_latest_from_redis E sym w2)
     = Ok (tick_payload (PStr sym) p n (utcnow E (nclk w1)) "T")).
Proof.
  intros Hp Hn _ Hpub2.
  apply publish_tick_ok in Hpub2 as (p' & n' & Hp' & Hn' & Hlatest & _).
  rewrite Hp in Hp'. rewrite Hn in Hn'. injection Hp' as <-. injection Hn' as <-.
  split.
  - unfold Redis.get. unfold latest_key in Hlatest. simpl in Hlatest.
    by rewrite Hlatest.
  - intros Hupper Hup Hne Hload.
    eapply get_latest_hit; eauto.
    rewrite Hupper. exact Hlatest.
Qed.

End ReaderClaims.

(** C8, witness: AAPL at 150, size 1, published twice. *)
Lemma latest_overwrite_idempotent_witness :
  fst (get_latest_from_redis (H := Ref.runtime) Demo.env_up "AAPL" (snd Demo.run_twice))
  = Ok (tick_payload (PStr "AAPL") 150%float 1
          (utcnow Demo.env_up (nclk (snd Demo.run1))) "T").
Proof.
  apply (latest_overwrite_idempotent (H := Ref.runtime) 200 Demo.env_up "AAPL"
           (PInt 150) (PInt 1) 150%float 1 (Demo.fresh 42) (snd Demo.run1)
           (snd Demo.run_twice)).
  - vm_compute. reflexivity.
  - reflexivity.
  - apply pair_of_fst. vm_compute. reflexivity.
  - apply pair_of_fst. vm_compute. reflexivity.
  - reflexivity.
  - reflexivity.
  - vm_compute. discriminate.
  - vm_compute. reflexivity.
Defined.

(** ** The timestamps of the published ticks *)

Section ClockClaims.
Context `{PyRuntime}.
Variable POLY_KEY : option string.
Variable WATCHLIST : list string.
Variable TICK_LIST_LEN : Z.
Variable E : env.












End ClockClaims.


(** ** The simulator and the failures of the server *)

Section OutageClaims.
Context `{PyRuntime}.
Variable WATCHLIST : list string.
Variable TICK_LIST_LEN : Z.
Variable E : env.


Lemma draw_ok {A : Type} (f : rng_state -> A * rng_state) (a : A) (w w' : world) :
  draw f w = (Ok a, w') -> a = fst (f (rng w)) /\ w' = set_rng (snd (f (rng w))) w.
Proof. unfold draw. destruct (f (rng w)). by intros [= <- <-]. Qed.








End OutageClaims.



(** ** The simulator and its generator *)

Section SimulatorClaims.
Context `{PyRuntime}.
Variable WATCHLIST : list string.

Lemma same_ticks_refl (w1 w2 : world) : same_ticks w1 w1 w2 w2.
Proof. by exists [], []. Qed.

Lemma same_ticks_trans (w1 w1' w1'' w2 w2' w2'' : world) :
  same_ticks w1 w1' w2 w2' -> same_ticks w1' w1'' w2' w2'' ->
  same_ticks w1 w1'' w2 w2''.
Proof.
  intros (a1 & a2 & Ha1 & Ha2 & Ha) (b1 & b2 & Hb1 & Hb2 & Hb).
  exists (b1 ++ a1), (b2 ++ a2). repeat split.
  - by rewrite Hb1, Ha1, app_assoc.
  - by rewrite Hb2, Ha2, app_assoc.
  - by rewrite !map_app, Ha, Hb.
Qed.

(** The first loop draws from the generator and does nothing else. *)
Lemma init_base_agree (wl : list string) (base b1 b2 : gmap string float)
    (w1 w1' w2 w2' : world) :
  rng w1 = rng w2 ->
  init_base wl base w1 = (Ok b1, w1') ->
  init_base wl base w2 = (Ok b2, w2') ->
  b1 = b2 /\ rng w1' = rng w2' /\ same_ticks w1 w1' w2 w2'.
Proof.
  revert base w1 w2. induction wl as [|s rest IH]; intros base w1 w2 Hrng; simpl.
  - intros [= <- <-] [= <- <-]. auto using same_ticks_refl.
  - intros Hr1 Hr2.
    apply bind_ok in Hr1 as (u1 & v1 & Hd1 & Hr1). apply draw_ok in Hd1 as [-> ->].
    apply bind_ok in Hr2 as (u2 & v2 & Hd2 & Hr2). apply draw_ok in Hd2 as [-> ->].
    rewrite Hrng in Hr1.
    destruct (IH _ (set_rng _ w1) (set_rng _ w2) eq_refl Hr1 Hr2) as (Hb & Hg & Hs).
    split; [exact Hb|]. split; [exact Hg|].
    destruct Hs as (n1 & n2 & Hn1 & Hn2 & Hn). by exists n1, n2.
Qed.

(** The body of the loop for one symbol: what it publishes and the price
    it keeps depend on the symbol's last price and on the generator only. *)
Lemma sim_symbol_agree (C1 C2 : Z) (E1 E2 : env) (s : string)
    (base b1 b2 : gmap string float) (w1 w1' w2 w2' : world) :
  rng w1 = rng w2 ->
  sim_symbol C1 E1 s base w1 = (Ok b1, w1') ->
  sim_symbol C2 E2 s base w2 = (Ok b2, w2') ->
  b1 = b2 /\ rng w1' = rng w2' /\ same_ticks w1 w1' w2 w2'.
Proof.
  intros Hrng. unfold sim_symbol. destruct (base !! s) as [last|]; [|discriminate].
  intros Hr1 Hr2.
  apply bind_ok in Hr1 as (c1 & v1 & Hc1 & Hr1). apply draw_ok in Hc1 as [-> ->].
  apply bind_ok in Hr1 as (n1 & x1 & Hn1 & Hr1). apply draw_ok in Hn1 as [-> ->].
  apply bind_ok in Hr1 as ([] & y1 & Hp1 & Hr1). injection Hr1 as <- <-.
  apply bind_ok in Hr2 as (c2 & v2 & Hc2 & Hr2). apply draw_ok in Hc2 as [-> ->].
  apply bind_ok in Hr2 as (n2 & x2 & Hn2 & Hr2). apply draw_ok in Hn2 as [-> ->].
  apply bind_ok in Hr2 as ([] & y2 & Hp2 & Hr2). injection Hr2 as <- <-.
  apply publish_tick_ok in Hp1
    as (p1 & k1 & Hf1 & Hi1 & _ & _ & _ & Hh1 & _ & _ & Hg1 & _).
  apply publish_tick_ok in Hp2
    as (p2 & k2 & Hf2 & Hi2 & _ & _ & _ & Hh2 & _ & _ & Hg2 & _).
  simpl in *. rewrite Hrng in *.
  injection Hf1 as <-. injection Hf2 as <-. injection Hi1 as <-. injection Hi2 as <-.
  split; [reflexivity|]. split; [by rewrite Hg1, Hg2|].
  eexists [_], [_]. split; [exact Hh1|]. split; [exact Hh2|]. reflexivity.
Qed.

Lemma sim_round_agree (C1 C2 : Z) (E1 E2 : env) (wl : list string)
    (base b1 b2 : gmap string float) (w1 w1' w2 w2' : world) :
  rng w1 = rng w2 ->
  sim_round C1 E1 wl base w1 = (Ok b1, w1') ->
  sim_round C2 E2 wl base w2 = (Ok b2, w2') ->
  b1 = b2 /\ rng w1' = rng w2' /\ same_ticks w1 w1' w2 w2'.
Proof.
  revert base w1 w2. induction wl as [|s rest IH]; intros base w1 w2 Hrng; simpl.
  - intros [= <- <-] [= <- <-]. auto using same_ticks_refl.
  - intros Hr1 Hr2.
    apply bind_ok in Hr1 as (a1 & v1 & Hs1 & Hr1).
    apply bind_ok in Hr2 as (a2 & v2 & Hs2 & Hr2).
    destruct (sim_symbol_agree _ _ _ _ _ _ _ _ _ _ _ _ Hrng Hs1 Hs2) as (<- & Hg & Ht).
    destruct (IH _ _ _ Hg Hr1 Hr2) as (Hb & Hg' & Ht').
    eauto using same_ticks_trans.
Qed.

Lemma sim_loop_agree (C1 C2 : Z) (E1 E2 : env) (rounds : nat)
    (base b1 b2 : gmap string float) (w1 w1' w2 w2' : world) :
  rng w1 = rng w2 ->
  sim_loop WATCHLIST C1 E1 rounds base w1 = (Ok b1, w1') ->
  sim_loop WATCHLIST C2 E2 rounds base w2 = (Ok b2, w2') ->
  b1 = b2 /\ rng w1' = rng w2' /\ same_ticks w1 w1' w2 w2'.
Proof.
  revert base w1 w2. induction rounds as [|k IH]; intros base w1 w2 Hrng; simpl.
  - intros [= <- <-] [= <- <-]. auto using same_ticks_refl.
  - intros Hr1 Hr2.
    apply bind_ok in Hr1 as (a1 & v1 & Hs1 & Hr1).
    apply bind_ok in Hr2 as (a2 & v2 & Hs2 & Hr2).
    destruct (sim_round_agree _ _ _ _ _ _ _ _ _ _ _ _ Hrng Hs1 Hs2) as (<- & Hg & Ht).
    destruct (IH _ _ _ Hg Hr1 Hr2) as (Hb & Hg' & Ht').
    eauto using same_ticks_trans.
Qed.

(** One step of the walk of a symbol. *)
Lemma sim_symbol_step (C : Z) (E : env) (s : string)
    (base base' : gmap string float) (w w' : world) :
  sim_symbol C E s base w = (Ok base', w') ->
  exists last,
    base !! s = Some last /\
    base' = <[s := (last * (1 + fst (rng_uniform (-0.01) 0.01 (rng w))))%float]> base.
Proof.
  unfold sim_symbol. destruct (base !! s) as [last|]; [|discriminate].
  intros Hrun. exists last. split; [reflexivity|].
  apply bind_ok in Hrun as (c & v & Hc & Hrun). apply draw_ok in Hc as [-> ->].
  apply bind_ok in Hrun as (n & x & Hn & Hrun).
  apply bind_ok in Hrun as ([] & y & Hp & Hrun). by injection Hrun as <- _.
Qed.

(** C6, as amended: two runs of the simulator for the same Watchlist that
    start from the same state of the generator and are both still going after
    K rounds have published the same symbols, prices and sizes in the same
    order and hold the same prices, whatever the clocks, the capacities and
    the contents of the two servers; and the step of a symbol replaces its
    own price by last * (1 + u), u being the next draw, and leaves the prices
    of the other symbols alone.  (The draws of all the symbols come from the
    one generator, so the series of a symbol is not claimed to be independent
    of the rest of the Watchlist.) *)
Theorem simulation_reproducible
    (C1 C2 : Z) (E1 E2 : env) (rounds : nat)
    (b1 b2 : gmap string float) (w1 w1' w2 w2' : world) :
  rng w1 = rng w2 ->
  simulate_ticks WATCHLIST C1 E1 rounds w1 = (Ok b1, w1') ->
  simulate_ticks WATCHLIST C2 E2 rounds w2 = (Ok b2, w2') ->
  (b1 = b2 /\
   exists new1 new2 : list pyval,
     published w1' = new1 ++ published w1 /\
     published w2' = new2 ++ published w2 /\
     map tick_core new1 = map tick_core new2 /\
     forall s, prices_of s new1 = prices_of s new2) /\
  (forall (C : Z) (E : env) (s : string) (base base' : gmap string float)
          (w w' : world),
     sim_symbol C E s base w = (Ok base', w') ->
     exists last,
       base !! s = Some last /\
       base' = <[s := (last * (1 + fst (rng_uniform (-0.01) 0.01 (rng w))))%float]> base /\
       forall t, t <> s -> base' !! t = base !! t).
Proof.
  intros Hrng Hr1 Hr2. split.
  - unfold simulate_ticks in Hr1, Hr2.
    apply bind_ok in Hr1 as (a1 & v1 & Hi1 & Hr1).
    apply bind_ok in Hr2 as (a2 & v2 & Hi2 & Hr2).
    destruct (init_base_agree _ _ _ _ _ _ _ _ Hrng Hi1 Hi2) as (<- & Hg & Ht).
    destruct (sim_loop_agree _ _ _ _ _ _ _ _ _ _ _ _ Hg Hr1 Hr2) as (Hb & _ & Ht').
    split; [exact Hb|].
    destruct (same_ticks_trans _ _ _ _ _ _ Ht Ht') as (n1 & n2 & Hn1 & Hn2 & Hn).
    exists n1, n2. repeat split; try done.
    intros s. unfold prices_of. by rewrite Hn.
  - intros C E s base base' w w' Hstep.
    apply sim_symbol_step in Hstep as (last & Hlast & ->).
    exists last. repeat split; try done.
    intros t Ht. by rewrite lookup_insert_ne.
Qed.

End SimulatorClaims.

(** C6, witness: two rounds for AAPL from the seed 42, under two clocks
    and two capacities. *)
Lemma simulation_reproducible_witness :
  fst Demo.run_sim_one = fst Demo.run_sim_later /\
  exists new1 new2 : list pyval,
    published (snd Demo.run_sim_one) = new1 ++ published (Demo.fresh 42) /\
    published (snd Demo.run_sim_later) = new2 ++ published (Demo.fresh 42) /\
    map tick_core new1 = map tick_core new2 /\
    forall s, prices_of s new1 = prices_of s new2.
Proof.
  destruct (fst Demo.run_sim_one) as [b1|] eqn:H1; [|by vm_compute in H1].
  destruct (fst Demo.run_sim_later) as [b2|] eqn:H2; [|by vm_compute in H2].
  destruct (proj1 (simulation_reproducible (H := Ref.runtime) ["AAPL"] 200 1
                     Demo.env_up Demo.env_later 2 b1 b2
                     (Demo.fresh 42) (snd Demo.run_sim_one)
                     (Demo.fresh 42) (snd Demo.run_sim_later)
                     eq_refl (pair_of_fst _ _ H1) (pair_of_fst _ _ H2)))
    as [Hb Hticks].
  split; [by rewrite Hb|exact Hticks].
Defined.

(** C6, as stated, fails in its second half: from the same seed, the
    prices published for AAPL when the Watchlist is AAPL alone are not those
    published when MSFT stands in it as well, because the draws for MSFT are
    taken from the same generator between those for AAPL. *)
Lemma prices_depend_on_watchlist :
  (exists b, fst Demo.run_sim_one = Ok b) /\
  (exists b, fst Demo.run_sim_two = Ok b) /\
  prices_of "AAPL" (published (snd Demo.run_sim_one))
  <> prices_of "AAPL" (published (snd Demo.run_sim_two)).
Proof.
  split; [eexists; vm_compute; reflexivity|].
  split; [eexists; vm_compute; reflexivity|].
  intros Heq. apply (f_equal (map Demo.cents)) in Heq.
  vm_compute in Heq. discriminate.
Qed.

(** ** The model at work on concrete inputs *)

Example default_watchlist_value :
  default_watchlist = ["AAPL"; "MSFT"; "TSLA"; "RELIANCE.NS"].
Proof. reflexivity. Qed.

Example watchlist_is_stripped_and_upper :
  watchlist_of_env " aapl ,msft" = ["AAPL"; "MSFT"].
Proof. reflexivity. Qed.

Example isoformat_whole_second :
  isoformat (Datetime 2024 3 5 9 7 1 0) = "2024-03-05T09:07:01".
Proof. reflexivity. Qed.

Example isoformat_microseconds :
  isoformat (Datetime 2024 3 5 9 7 1 1234) = "2024-03-05T09:07:01.001234".
Proof. reflexivity. Qed.

Example ltrim_keeps_the_first_two :
  Redis.trim_range 0 1 ["c"; "b"; "a"] = ["c"; "b"].
Proof. reflexivity. Qed.

Example ltrim_to_minus_one_keeps_all :
  Redis.trim_range 0 (-1) ["c"; "b"; "a"] = ["c"; "b"; "a"].
Proof. reflexivity. Qed.

Example ltrim_to_minus_two_drops_the_last :
  Redis.trim_range 0 (-2) ["c"; "b"; "a"] = ["c"; "b"] /\
  Redis.trim_range 0 (-2) ["a"] = [].
Proof. split; reflexivity. Qed.

Example float_of_large_int :
  float_of_int 9007199254740993 = Ok 9007199254740992%float /\
  float_of_int (2 ^ 1024) = Raise OverflowError.
Proof. split; vm_compute; reflexivity. Qed.

Example int_of_float_truncates :
  int_of_float (-150.99)%float = Ok (-150).
Proof. vm_compute. reflexivity. Qed.

Example round_half_cases :
  Ref.round_ndigits 2.675%float 2 = 2.67%float /\
  Ref.round_ndigits (-0.125)%float 2 = (-0.12)%float.
Proof. split; vm_compute; reflexivity. Qed.

Example auth_frame_text :
  auth_frame (H := Ref.runtime) (Some "secret")
  = Demo.json_text "{'action': 'auth', 'params': 'secret'}".
Proof. vm_compute. reflexivity. Qed.

Example subscribe_frame_text :
  subscribe_frame (H := Ref.runtime) "AAPL"
  = Demo.json_text "{'action': 'subscribe', 'params': 'T.AAPL'}".
Proof. vm_compute. reflexivity. Qed.

Example good_then_bad_publishes_one :
  fst Demo.run_good_bad = Ok tt /\
  published (snd Demo.run_good_bad)
  = [tick_payload (PStr "AAPL") 150.25%float 10 (Demo.clock 0) "T"].
Proof. split; vm_compute; reflexivity. Qed.

Example latest_text_of_one_tick :
  db (snd Demo.run1) !! "latest:AAPL"
  = Some (Redis.RStr (Demo.json_text
      "{'symbol': 'AAPL', 'price': 150.0, 'size': 1, 'ts': '2024-01-02T03:04:00Z', 'type': 'T'}")).
Proof. vm_compute. reflexivity. Qed.

Example reader_misses_a_lower_case_symbol :
  fst (get_latest_from_redis (H := Ref.runtime) Demo.env_up " aapl" (snd Demo.run_lower))
  = Ok PNone.
Proof. vm_compute. reflexivity. Qed.

(** ** Further properties of the message handler *)

Section HandlerExtras.
Context `{PyRuntime}.
Variable TICK_LIST_LEN : Z.
Variable E : env.

Lemma on_elements_app (pre post : list pyval) (w : world) :
  on_elements TICK_LIST_LEN E (pre ++ post) w =
  bind (on_elements TICK_LIST_LEN E pre)
       (fun _ => on_elements TICK_LIST_LEN E post) w.
Proof.
  revert w. induction pre as [|x pre IH]; intros w; simpl.
  - reflexivity.
  - unfold bind.
    destruct (on_element TICK_LIST_LEN E x w) as [[[]|e] w1]; [|reflexivity].
    rewrite IH. reflexivity.
Qed.

(** X1: the handler never raises, whatever the message and the state of
    the server; and a message that does not decode to a JSON array (a status
    object, a number, text that is not JSON) leaves the world as it was. *)
Theorem on_message_never_raises (message : string) (w : world) :
  fst (on_message TICK_LIST_LEN E message w) = Ok tt /\
  ((forall data, json_loads message <> Some (PList data)) ->
   snd (on_message TICK_LIST_LEN E message w) = w).
Proof.
  split; [apply on_message_total|].
  intros Hnot. unfold on_message, try_except.
  destruct (json_loads message) as [[| | | | |data|]|]; try reflexivity.
  by destruct (Hnot data).
Qed.

(** X2: the elements of an array are handled in order up to the first one
    on which an exception is raised: the elements before it are handled in
    full, what the failing element did before raising stays done, the
    elements after it are never looked at, and the handler returns. *)
Theorem on_message_stops_at_first_exception
    (message : string) (pre post : list pyval) (x : pyval) (e : exn)
    (w w1 w2 : world) :
  json_loads message = Some (PList (pre ++ x :: post)) ->
  on_elements TICK_LIST_LEN E pre w = (Ok tt, w1) ->
  on_element TICK_LIST_LEN E x w1 = (Raise e, w2) ->
  on_message TICK_LIST_LEN E message w = (Ok tt, w2).
Proof.
  intros Hmsg Hpre Hx.
  rewrite (on_message_array _ _ _ _ _ Hmsg), on_elements_app.
  rewrite (bind_step _ _ _ _ _ Hpre). simpl.
  by rewrite (bind_raise _ _ _ _ _ Hx).
Qed.

(** X3: the dicts whose field [ev] is not [T] (quotes, status events) have
    no effect at all: handling an array is handling it with these elements
    taken out. *)
Theorem on_elements_skips_other_events (data : list pyval) (w : world) :
  on_elements TICK_LIST_LEN E data w =
  on_elements TICK_LIST_LEN E (List.filter (fun m => negb (skipped_event m)) data) w.
Proof.
  revert w. induction data as [|m data IH]; intros w; [reflexivity|].
  cbn [List.filter].
  destruct (skipped_event m) eqn:Hskip; cbn [negb].
  - destruct m as [| | | | | |d]; try discriminate. simpl in Hskip.
    apply negb_true_iff in Hskip.
    cbn [on_elements]. unfold bind at 1.
    rewrite (on_element_other _ _ _ _ Hskip). apply IH.
  - cbn [on_elements]. unfold bind.
    destruct (on_element TICK_LIST_LEN E m w) as [[[]|e] w1]; [apply IH|reflexivity].
Qed.

(** X4: a trade event whose field [p] is missing or zero and that has no
    field [price] is dropped with a [TypeError]: nothing is written and the
    clock is not read. *)
Theorem trade_without_price_is_dropped (d : list (string * pyval)) (w : world) :
  is_trade d ->
  truthy (dict_get "p" d) = false ->
  dict_get "price" d = PNone ->
  on_element TICK_LIST_LEN E (PDict d) w = (Raise TypeError, w).
Proof.
  intros Hev Hp Hprice. rewrite on_element_trade by done.
  apply publish_tick_bad_price.
  unfold trade_price, py_or. by rewrite Hp, Hprice.
Qed.

(** X5: when the fields [s] and [size] of a trade event are both missing,
    null or zero, the tick is published with the size 1. *)
Theorem size_defaults_to_one (d : list (string * pyval)) (w w' : world) :
  is_trade d ->
  truthy (dict_get "s" d) = false ->
  truthy (dict_get "size" d) = false ->
  on_element TICK_LIST_LEN E (PDict d) w = (Ok tt, w') ->
  exists payload,
    published w' = payload :: published w /\
    py_get payload "size" = Ok (PInt 1).
Proof.
  intros Hev Hs Hsize Hrun. rewrite on_element_trade in Hrun by done.
  apply publish_tick_ok in Hrun as (p & n & _ & Hn & _ & _ & _ & Hhist & _).
  unfold trade_size, py_or in Hn. rewrite Hs, Hsize in Hn. simpl in Hn.
  injection Hn as <-. eexists. split; [exact Hhist|reflexivity].
Qed.

(** X6: a trade event that names no symbol (the fields [sym] and [ticker]
    are missing or empty, and [ticker] is missing) is still published: its
    tick has the symbol null and lands under the key [latest:None]. *)
Theorem trade_without_symbol_goes_to_None
    (d : list (string * pyval)) (w w' : world) :
  is_trade d ->
  truthy (dict_get "sym" d) = false ->
  dict_get "ticker" d = PNone ->
  on_element TICK_LIST_LEN E (PDict d) w = (Ok tt, w') ->
  exists payload,
    published w' = payload :: published w /\
    py_get payload "symbol" = Ok PNone /\
    db w' !! "latest:None" = Some (Redis.RStr (json_dumps payload)).
Proof.
  intros Hev Hsym Hticker Hrun. rewrite on_element_trade in Hrun by done.
  assert (Hnone : trade_symbol d = PNone).
  { unfold trade_symbol, py_or. by rewrite Hsym, Hticker. }
  rewrite Hnone in Hrun.
  apply publish_tick_ok in Hrun as (p & n & _ & _ & Hlatest & _ & _ & Hhist & _).
  eexists. split; [exact Hhist|]. split; [reflexivity|exact Hlatest].
Qed.

(** X7: while the server refuses every command, the handler still returns
    normally, and neither the content of the server nor the history of
    published ticks changes. *)
Theorem on_message_contains_outage (message : string) (w : world) :
  (forall i, (ncmd w <= i)%nat -> redis_up E i = false) ->
  fst (on_message TICK_LIST_LEN E message w) = Ok tt /\
  db (snd (on_message TICK_LIST_LEN E message w)) = db w /\
  published (snd (on_message TICK_LIST_LEN E message w)) = published w.
Proof.
  intros Hdown. split; [apply on_message_total|].
  destruct (on_message TICK_LIST_LEN E message w) as [r w'] eqn:Hrun. simpl.
  assert (HI : db w' = db w /\ published w' = published w /\ (ncmd w <= ncmd w')%nat);
    [|tauto].
  eapply (preserves_on_message TICK_LIST_LEN E
            (fun w0 => db w0 = db w /\ published w0 = published w /\
                       (ncmd w <= ncmd w0)%nat)); eauto.
  intros sym price size ev w0 r0 w0' Hpub (Hdb & Hhist & Hn).
  unfold publish_tick, bind, lift, read_clock in Hpub.
  destruct (py_float price); simpl in Hpub;
    [|revert Hpub; by intros [= <- <-]].
  destruct (py_int size); simpl in Hpub;
    [|revert Hpub; by intros [= <- <-]].
  unfold redis_cmd in Hpub at 1. simpl in Hpub.
  rewrite (Hdown (ncmd w0) Hn) in Hpub. simpl in Hpub.
  revert Hpub. intros [= <- <-]. simpl. repeat split; try done. lia.
Qed.

End HandlerExtras.

(** X2, witness: a number between two well-formed trades; the first trade
    is published, the second is not. *)
Lemma on_message_stops_at_first_exception_witness :
  on_message (H := Ref.runtime) 200 Demo.env_up Demo.msg_good_number_good (Demo.fresh 42)
  = (Ok tt, snd Demo.run_good_alone).
Proof.
  apply (on_message_stops_at_first_exception (H := Ref.runtime) 200 Demo.env_up
           Demo.msg_good_number_good [PDict Demo.good_dict] [PDict Demo.good_dict]
           (PInt 5) AttributeError (Demo.fresh 42) (snd Demo.run_good_alone)
           (snd Demo.run_good_alone)).
  - vm_compute. reflexivity.
  - apply pair_of_fst. vm_compute. reflexivity.
  - reflexivity.
Defined.

(** X4, witness: a trade for AAPL with the price 0. *)
Lemma trade_without_price_is_dropped_witness :
  on_element (H := Ref.runtime) 200 Demo.env_up (PDict Demo.zero_price_dict)
             (Demo.fresh 42)
  = (Raise TypeError, Demo.fresh 42).
Proof.
  apply (trade_without_price_is_dropped (H := Ref.runtime) 200 Demo.env_up
           Demo.zero_price_dict (Demo.fresh 42)); reflexivity.
Defined.

(** X5, witness: a trade for AAPL without size. *)
Lemma size_defaults_to_one_witness :
  exists payload,
    published (snd Demo.run_no_size) = payload :: published (Demo.fresh 42) /\
    py_get payload "size" = Ok (PInt 1).
Proof.
  apply (size_defaults_to_one (H := Ref.runtime) 200 Demo.env_up
           Demo.no_size_dict (Demo.fresh 42) (snd Demo.run_no_size)).
  - reflexivity.
  - reflexivity.
  - reflexivity.
  - apply pair_of_fst. vm_compute. reflexivity.
Defined.

(** X6, witness: a trade without symbol. *)
Lemma trade_without_symbol_goes_to_None_witness :
  exists payload,
    published (snd Demo.run_no_symbol) = payload :: published (Demo.fresh 42) /\
    py_get payload "symbol" = Ok PNone /\
    db (snd Demo.run_no_symbol) !! "latest:None"
      = Some (Redis.RStr (json_dumps (PyRuntime := Ref.runtime) payload)).
Proof.
  apply (trade_without_symbol_goes_to_None (H := Ref.runtime) 200 Demo.env_up
           Demo.no_symbol_dict (Demo.fresh 42) (snd Demo.run_no_symbol)).
  - reflexivity.
  - reflexivity.
  - reflexivity.
  - apply pair_of_fst. vm_compute. reflexivity.
Defined.

(** X7, witness: a well-formed trade arrives while the server is down. *)
Lemma on_message_contains_outage_witness :
  fst (on_message (H := Ref.runtime) 200 Demo.env_down Demo.msg_good (Demo.fresh 42))
    = Ok tt /\
  db (snd (on_message (H := Ref.runtime) 200 Demo.env_down Demo.msg_good (Demo.fresh 42)))
    = db (Demo.fresh 42) /\
  published (snd (on_message (H := Ref.runtime) 200 Demo.env_down Demo.msg_good
                             (Demo.fresh 42)))
    = published (Demo.fresh 42).
Proof.
  apply (on_message_contains_outage (H := Ref.runtime) 200 Demo.env_down
           Demo.msg_good (Demo.fresh 42)).
  intros i _. reflexivity.
Defined.

(** ** Further properties of [publish_tick] *)

Section PublishExtras.
Context `{PyRuntime}.
Variable TICK_LIST_LEN : Z.
Variable E : env.

Lemma lpush_other (k d : string) (m m' : gmap string Redis.rval) :
  Redis.lpush k d m = Ok m' -> forall k', k' <> k -> m' !! k' = m !! k'.
Proof.
  unfold Redis.lpush. intros Hpush k' Hne.
  destruct (m !! k) as [[s|l]|]; revert Hpush; intros [= <-];
    by rewrite lookup_insert_ne.
Qed.

(** What is known of a call of [publish_tick] that raises. *)
Lemma publish_tick_raise_inv
    (sym price size : pyval) (ev : string) (e : exn) (w w' : world) :
  publish_tick TICK_LIST_LEN E sym price size ev w = (Raise e, w') ->
  published w' = published w /\
  (forall k, k <> latest_key sym -> k <> ticks_key sym -> db w' !! k = db w !! k) /\
  ((w' = w /\ (py_float price = Raise e \/ py_int size = Raise e)) \/
   ((e = ConnectionError \/ e = ResponseError) /\ nclk w' = S (nclk w))).
Proof.
  unfold publish_tick, bind, lift, read_clock. intros Hrun.
  destruct (py_float price) as [p|e1] eqn:Hp; simpl in Hrun;
    [|revert Hrun; intros [= <- <-]; by eauto 6].
  destruct (py_int size) as [n|e2] eqn:Hn; simpl in Hrun;
    [|revert Hrun; intros [= <- <-]; by eauto 6].
  unfold redis_cmd, record_published in Hrun. simpl in Hrun.
  destruct (redis_up E (ncmd w)); simpl in Hrun;
    [|revert Hrun; intros [= <- <-]; simpl; by eauto 8].
  assert (Hset : forall k, k <> latest_key sym ->
            Redis.set (latest_key sym)
              (json_dumps (tick_payload sym p n (utcnow E (nclk w)) ev)) (db w) !! k
            = db w !! k).
  { intros k Hk. unfold Redis.set. by rewrite lookup_insert_ne. }
  destruct (redis_up E (S (ncmd w))); simpl in Hrun;
    [|revert Hrun; intros [= <- <-]; simpl; by eauto 8].
  destruct (Redis.lpush _ _ _) as [m2|e3] eqn:Hpush; simpl in Hrun.
  2:{ revert Hrun. intros [= <- <-]. simpl.
      assert (e3 = ResponseError) as ->.
      { unfold Redis.lpush in Hpush.
        destruct (_ !! ticks_key sym) as [[s|l]|]; congruence. }
      by eauto 8. }
  assert (Hm2 : forall k, k <> latest_key sym -> k <> ticks_key sym ->
                          m2 !! k = db w !! k).
  { intros k Hk1 Hk2. rewrite (lpush_other _ _ _ _ Hpush) by done. by apply Hset. }
  destruct (redis_up E (S (S (ncmd w)))); simpl in Hrun;
    [|revert Hrun; intros [= <- <-]; simpl; by eauto 8].
  destruct (Redis.ltrim _ _ _ _) as [m3|e4] eqn:Htrim; simpl in Hrun;
    [discriminate|].
  revert Hrun. intros [= <- <-]. simpl.
  assert (e4 = ResponseError) as ->.
  { unfold Redis.ltrim in Htrim.
    destruct (m2 !! ticks_key sym) as [[s|l]|]; [congruence| |congruence].
    destruct (Redis.trim_range _ _ _); congruence. }
  by eauto 8.
Qed.

(** X8: a call of [publish_tick] that raises never enters the history and
    never touches the keys of another symbol.  Either a conversion failed
    ([float(price)] or [int(size)]) and the world is exactly as before, or the
    server failed ([ConnectionError], or [ResponseError] when [ticks:SYMBOL]
    holds a string) after the clock was read once. *)
Theorem publish_tick_failure_modes
    (sym price size : pyval) (ev : string) (e : exn) (w w' : world) :
  publish_tick TICK_LIST_LEN E sym price size ev w = (Raise e, w') ->
  published w' = published w /\
  (forall k, k <> latest_key sym -> k <> ticks_key sym -> db w' !! k = db w !! k) /\
  ((w' = w /\ (py_float price = Raise e \/ py_int size = Raise e)) \/
   ((e = ConnectionError \/ e = ResponseError) /\ nclk w' = S (nclk w))).
Proof. apply publish_tick_raise_inv. Qed.

(** X9: when the server answers the [SET] of a publish and refuses the
    [LPUSH] that follows, the call raises [ConnectionError] and leaves the
    store torn: [latest:SYMBOL] holds the new tick while the window
    [ticks:SYMBOL] is what it was, and the history has no new entry. *)
Theorem publish_tick_torn_by_outage
    (sym price size : pyval) (ev : string) (p : float) (n : Z) (w : world) :
  py_float price = Ok p ->
  py_int size = Ok n ->
  redis_up E (ncmd w) = true ->
  redis_up E (S (ncmd w)) = false ->
  exists w',
    publish_tick TICK_LIST_LEN E sym price size ev w = (Raise ConnectionError, w') /\
    db w' !! latest_key sym
      = Some (Redis.RStr (json_dumps (tick_payload sym p n (utcnow E (nclk w)) ev))) /\
    Redis.window (ticks_key sym) (db w') = Redis.window (ticks_key sym) (db w) /\
    published w' = published w.
Proof.
  intros Hp Hn Hup Hdown.
  unfold publish_tick, bind, lift, read_clock, redis_cmd.
  rewrite Hp, Hn. simpl. rewrite Hup. simpl. rewrite Hdown. simpl.
  eexists. split; [reflexivity|]. simpl. repeat split.
  - unfold Redis.set. by rewrite lookup_insert_eq.
  - unfold Redis.set. apply RedisFacts.window_other, RedisFacts.latest_ne_ticks.
Qed.

End PublishExtras.

(** X8, witness: the price is text that [float] refuses. *)
Lemma publish_tick_failure_modes_witness :
  published (Demo.fresh 42) = published (Demo.fresh 42) /\
  (forall k, k <> latest_key (H := Ref.runtime) (PStr "AAPL") ->
             k <> ticks_key (H := Ref.runtime) (PStr "AAPL") ->
             db (Demo.fresh 42) !! k = db (Demo.fresh 42) !! k) /\
  ((Demo.fresh 42 = Demo.fresh 42 /\
    (py_float (H := Ref.runtime) (PStr "n/a") = Raise ValueError \/
     py_int (H := Ref.runtime) (PInt 1) = Raise ValueError)) \/
   ((ValueError = ConnectionError \/ ValueError = ResponseError) /\
    nclk (Demo.fresh 42) = S (nclk (Demo.fresh 42)))).
Proof.
  apply (publish_tick_failure_modes (H := Ref.runtime) 200 Demo.env_up
           (PStr "AAPL") (PStr "n/a") (PInt 1) "T" ValueError
           (Demo.fresh 42) (Demo.fresh 42)).
  reflexivity.
Defined.

(** X9, witness: the server answers one command and then stops. *)
Lemma publish_tick_torn_by_outage_witness :
  exists w',
    publish_tick (H := Ref.runtime) 200 (Env Demo.clock (fun i => (i <? 1)%nat))
                 (PStr "AAPL") (PInt 150) (PInt 1) "T" (Demo.fresh 42)
      = (Raise ConnectionError, w') /\
    db w' !! latest_key (H := Ref.runtime) (PStr "AAPL")
      = Some (Redis.RStr (json_dumps (PyRuntime := Ref.runtime)
               (tick_payload (PStr "AAPL") 150%float 1
                  (utcnow (Env Demo.clock (fun i => (i <? 1)%nat))
                          (nclk (Demo.fresh 42))) "T"))) /\
    Redis.window (ticks_key (H := Ref.runtime) (PStr "AAPL")) (db w')
      = Redis.window (ticks_key (H := Ref.runtime) (PStr "AAPL")) (db (Demo.fresh 42)) /\
    published w' = published (Demo.fresh 42).
Proof.
  apply (publish_tick_torn_by_outage (H := Ref.runtime) 200
           (Env Demo.clock (fun i => (i <? 1)%nat))
           (PStr "AAPL") (PInt 150) (PInt 1) "T" 150%float 1 (Demo.fresh 42)).
  - vm_compute. reflexivity.
  - reflexivity.
  - reflexivity.
  - reflexivity.
Defined.

(** ** Further properties of the supervisor and of the simulator *)

Section SupervisorExtras.
Context `{PyRuntime}.
Variable POLY_KEY : option string.
Variable WATCHLIST : list string.
Variable TICK_LIST_LEN : Z.
Variable E : env.

(** X10: without a credential (the variable is unset, or set to the empty
    string) the module runs the simulator at once: the WebSocket module is
    not even imported, no connection is opened and no frame is sent, whatever
    the live session would have been. *)
Theorem no_credential_runs_simulator (s : session) (rounds : nat) (w : world) :
  POLY_KEY = None \/ POLY_KEY = Some "" ->
  main POLY_KEY WATCHLIST TICK_LIST_LEN E s rounds w =
    bind (simulate_ticks WATCHLIST TICK_LIST_LEN E rounds) (fun _ => ret tt) w /\
  socket (snd (main POLY_KEY WATCHLIST TICK_LIST_LEN E s rounds w)) = socket w.
Proof.
  intros Hkey.
  assert (Hmain : main POLY_KEY WATCHLIST TICK_LIST_LEN E s rounds w =
                  bind (simulate_ticks WATCHLIST TICK_LIST_LEN E rounds)
                       (fun _ => ret tt) w).
  { unfold main. by destruct Hkey as [-> | ->]. }
  split; [exact Hmain|]. rewrite Hmain. unfold bind.
  destruct (simulate_ticks WATCHLIST TICK_LIST_LEN E rounds w) as [[b|e] w'] eqn:Hrun;
    by apply simulate_ticks_socket in Hrun.
Qed.

Lemma dispatch_all_rng (evs : list ws_event) (w w' : world) r :
  dispatch_all POLY_KEY WATCHLIST TICK_LIST_LEN E evs w = (r, w') ->
  rng w' = rng w.
Proof.
  intros Hrun.
  eapply (preserves_dispatch_all POLY_KEY WATCHLIST TICK_LIST_LEN E
            (fun w0 => rng w0 = rng w)); eauto.
  - intros sym price size ev w0 r0 w0' Hpub <-.
    by apply publish_tick_frame in Hpub as (Hg & _).
  - by intros frame w0 r0 w0' [= <- <-].
Qed.

(** X11: when the live client ends without exception (the server closed
    the connection and [run_forever] returned), the module ends too: the
    simulator is not started, so the outcome does not depend on the number of
    rounds one waits, the generator is never used, and exactly one connection
    was opened. *)
Theorem live_end_without_exception_stops_worker
    (s : session) (rounds : nat) (w : world) :
  truthy (poly_key POLY_KEY) = true ->
  installed s = true ->
  failure s = None ->
  main POLY_KEY WATCHLIST TICK_LIST_LEN E s rounds w
    = main POLY_KEY WATCHLIST TICK_LIST_LEN E s 0 w /\
  fst (main POLY_KEY WATCHLIST TICK_LIST_LEN E s rounds w) = Ok tt /\
  rng (snd (main POLY_KEY WATCHLIST TICK_LIST_LEN E s rounds w)) = rng w /\
  connects (snd (main POLY_KEY WATCHLIST TICK_LIST_LEN E s rounds w))
    = S (connects w).
Proof.
  intros Hkey Hinst Hfail.
  assert (Hmain : forall k,
            main POLY_KEY WATCHLIST TICK_LIST_LEN E s k w =
            (Ok tt, snd (dispatch_all POLY_KEY WATCHLIST TICK_LIST_LEN E (events s)
                           (set_connects (S (connects w)) w)))).
  { intros k. unfold main, try_except, live_feed. rewrite Hkey, Hinst, Hfail.
    unfold bind, connect.
    pose proof (dispatch_all_returns POLY_KEY WATCHLIST TICK_LIST_LEN E (events s)
                  (set_connects (S (connects w)) w)) as Hret.
    destruct (dispatch_all _ _ _ _ _ _) as [r w1]. simpl in Hret. by subst r. }
  rewrite !Hmain. repeat split.
  - destruct (dispatch_all _ _ _ _ _ _) as [r w1] eqn:Hrun. simpl.
    by apply dispatch_all_rng in Hrun.
  - destruct (dispatch_all _ _ _ _ _ _) as [r w1] eqn:Hrun. simpl.
    by apply dispatch_all_connects in Hrun.
Qed.

Lemma init_base_published (wl : list string) (base b : gmap string float)
    (w w' : world) :
  init_base wl base w = (Ok b, w') -> published w' = published w /\ db w' = db w.
Proof.
  revert base w. induction wl as [|s rest IH]; intros base w; simpl.
  - by intros [= <- <-].
  - intros Hrun. apply bind_ok in Hrun as (u & w1 & Hdraw & Hrun).
    apply draw_ok in Hdraw as [_ ->]. by apply IH in Hrun.
Qed.

(** What one step of the simulator for the symbol [s] has published. *)
Lemma sim_symbol_published (s : string) (base b : gmap string float) (w w' : world) :
  sim_symbol TICK_LIST_LEN E s base w = (Ok b, w') ->
  exists p n now,
    published w' = tick_payload (PStr s) p n now "T" :: published w /\
    db w' !! ("latest:" +:+ s)
      = Some (Redis.RStr (json_dumps (tick_payload (PStr s) p n now "T"))) /\
    forall k, k <> "latest:" +:+ s -> k <> "ticks:" +:+ s -> db w' !! k = db w !! k.
Proof.
  unfold sim_symbol. destruct (base !! s) as [last|]; [|discriminate].
  intros Hrun.
  apply bind_ok in Hrun as (c & w1 & Hc & Hrun). apply draw_ok in Hc as [_ ->].
  apply bind_ok in Hrun as (n & w2 & Hn & Hrun). apply draw_ok in Hn as [_ ->].
  apply bind_ok in Hrun as ([] & w3 & Hpub & Hrun). revert Hrun. intros [= _ <-].
  apply publish_tick_ok in Hpub as (p & k & _ & _ & Hlatest & _ & Hoth & Hhist & _).
  exists p, k, (utcnow E (nclk w)). simpl in *. by repeat split.
Qed.

Lemma sim_round_symbols (wl : list string) (base b : gmap string float)
    (w w' : world) :
  sim_round TICK_LIST_LEN E wl base w = (Ok b, w') ->
  exists new, published w' = new ++ published w /\
              symbols_of (rev new) = map PStr wl.
Proof.
  revert base w. induction wl as [|s rest IH]; intros base w; cbn [sim_round].
  - intros [= <- <-]. by exists [].
  - intros Hrun. apply bind_ok in Hrun as (b1 & w1 & Hsym & Hrun).
    apply sim_symbol_published in Hsym as (p & n & now & Hhist & _).
    apply IH in Hrun as (new & Hnew & Hsyms).
    exists (new ++ [tick_payload (PStr s) p n now "T"]). split.
    + by rewrite Hnew, Hhist, <- app_assoc.
    + rewrite rev_app_distr. simpl. unfold symbols_of in *. simpl. by rewrite Hsyms.
Qed.

Lemma sim_loop_symbols (rounds : nat) (base b : gmap string float) (w w' : world) :
  sim_loop WATCHLIST TICK_LIST_LEN E rounds base w = (Ok b, w') ->
  exists new, published w' = new ++ published w /\
              symbols_of (rev new) = concat (replicate rounds (map PStr WATCHLIST)).
Proof.
  revert base w. induction rounds as [|k IH]; intros base w; cbn [sim_loop].
  - intros [= <- <-]. by exists [].
  - intros Hrun. apply bind_ok in Hrun as (b1 & w1 & Hround & Hrun).
    apply sim_round_symbols in Hround as (n1 & Hn1 & Hs1).
    apply IH in Hrun as (n2 & Hn2 & Hs2).
    exists (n2 ++ n1). split.
    + by rewrite Hn2, Hn1, app_assoc.
    + rewrite rev_app_distr. unfold symbols_of in *. rewrite map_app, Hs1, Hs2.
      reflexivity.
Qed.

(** X12: a run of the simulator that is still going after K rounds has
    published exactly one tick per entry of the Watchlist in each round, in
    the order of the Watchlist: K x |Watchlist| ticks, whose symbols read, from
    the oldest to the most recent, as the Watchlist repeated K times. *)
Theorem simulator_round_robin (rounds : nat) (b : gmap string float) (w w' : world) :
  simulate_ticks WATCHLIST TICK_LIST_LEN E rounds w = (Ok b, w') ->
  exists new,
    published w' = new ++ published w /\
    length new = (rounds * length WATCHLIST)%nat /\
    symbols_of (rev new) = concat (replicate rounds (map PStr WATCHLIST)).
Proof.
  unfold simulate_ticks. intros Hrun.
  apply bind_ok in Hrun as (b0 & w0 & Hinit & Hrun).
  apply init_base_published in Hinit as [Hinit _].
  apply sim_loop_symbols in Hrun as (new & Hnew & Hsyms).
  exists new. split; [by rewrite Hnew, Hinit|]. split; [|exact Hsyms].
  apply (f_equal length) in Hsyms. unfold symbols_of in Hsyms.
  rewrite length_map, length_rev in Hsyms. rewrite Hsyms.
  clear. induction rounds as [|k IH]; simpl; [reflexivity|].
  rewrite length_app, length_map, IH. reflexivity.
Qed.

Lemma sim_symbol_has_latest (t s : string) (base b : gmap string float) (w w' : world) :
  sim_symbol TICK_LIST_LEN E t base w = (Ok b, w') ->
  has_latest_tick (db w) s \/ s = t -> has_latest_tick (db w') s.
Proof.
  intros Hrun Hs.
  apply sim_symbol_published in Hrun as (p & n & now & _ & Hlatest & Hoth).
  destruct (decide (s = t)) as [->|Hne]; [by exists p, n, now|].
  destruct Hs as [(p' & n' & now' & Hs)|]; [|done].
  exists p', n', now'. rewrite Hoth; [exact Hs| |].
  - intros Heq. by apply RedisFacts.latest_inj in Heq.
  - apply RedisFacts.latest_ne_ticks.
Qed.

Lemma sim_round_has_latest (wl : list string) (s : string)
    (base b : gmap string float) (w w' : world) :
  sim_round TICK_LIST_LEN E wl base w = (Ok b, w') ->
  has_latest_tick (db w) s \/ In s wl -> has_latest_tick (db w') s.
Proof.
  revert base w. induction wl as [|t rest IH]; intros base w; cbn [sim_round].
  - intros [= <- <-] [Hs|[]]. exact Hs.
  - intros Hrun Hs. apply bind_ok in Hrun as (b1 & w1 & Hsym & Hrun).
    eapply IH; [exact Hrun|].
    destruct Hs as [Hs|[->|Hin]]; [left|left|by right];
      eapply sim_symbol_has_latest; eauto.
Qed.

Lemma sim_loop_has_latest (rounds : nat) (s : string)
    (base b : gmap string float) (w w' : world) :
  sim_loop WATCHLIST TICK_LIST_LEN E rounds base w = (Ok b, w') ->
  has_latest_tick (db w) s \/ ((1 <= rounds)%nat /\ In s WATCHLIST) ->
  has_latest_tick (db w') s.
Proof.
  revert base w. induction rounds as [|k IH]; intros base w; cbn [sim_loop].
  - intros [= <- <-] [Hs|[Hk _]]; [exact Hs|lia].
  - intros Hrun Hs. apply bind_ok in Hrun as (b1 & w1 & Hround & Hrun).
    eapply IH; [exact Hrun|]. left.
    eapply sim_round_has_latest; [exact Hround|]. tauto.
Qed.

(** X13: as soon as the simulator has completed one round, the key
    [latest:SYMBOL] of every symbol of the Watchlist holds the text of a tick
    of that symbol. *)
Theorem simulator_fills_latest
    (rounds : nat) (s : string) (b : gmap string float) (w w' : world) :
  (1 <= rounds)%nat ->
  In s WATCHLIST ->
  simulate_ticks WATCHLIST TICK_LIST_LEN E rounds w = (Ok b, w') ->
  has_latest_tick (db w') s.
Proof.
  intros Hk Hin. unfold simulate_ticks. intros Hrun.
  apply bind_ok in Hrun as (b0 & w0 & _ & Hrun).
  eapply sim_loop_has_latest; eauto.
Qed.

End SupervisorExtras.

(** X10, witness: the credential is the empty string. *)
Lemma no_credential_runs_simulator_witness :
  main (H := Ref.runtime) (Some "") default_watchlist 200 Demo.env_up
       Demo.session_crash 2 (Demo.fresh 42) =
    bind (simulate_ticks (H := Ref.runtime) default_watchlist 200 Demo.env_up 2)
         (fun _ => ret tt) (Demo.fresh 42) /\
  socket (snd (main (H := Ref.runtime) (Some "") default_watchlist 200 Demo.env_up
                    Demo.session_crash 2 (Demo.fresh 42)))
    = socket (Demo.fresh 42).
Proof.
  apply (no_credential_runs_simulator (H := Ref.runtime) (Some "") default_watchlist
           200 Demo.env_up Demo.session_crash 2 (Demo.fresh 42)).
  by right.
Defined.

(** X11, witness: a session that the server closes after one message. *)
Lemma live_end_without_exception_stops_worker_witness :
  main (H := Ref.runtime) (Some "key") default_watchlist 200 Demo.env_up
       Demo.session_closed 5 (Demo.fresh 42)
    = main (H := Ref.runtime) (Some "key") default_watchlist 200 Demo.env_up
           Demo.session_closed 0 (Demo.fresh 42) /\
  fst (main (H := Ref.runtime) (Some "key") default_watchlist 200 Demo.env_up
            Demo.session_closed 5 (Demo.fresh 42)) = Ok tt /\
  rng (snd (main (H := Ref.runtime) (Some "key") default_watchlist 200 Demo.env_up
                 Demo.session_closed 5 (Demo.fresh 42))) = rng (Demo.fresh 42) /\
  connects (snd (main (H := Ref.runtime) (Some "key") default_watchlist 200
                      Demo.env_up Demo.session_closed 5 (Demo.fresh 42)))
    = S (connects (Demo.fresh 42)).
Proof.
  apply (live_end_without_exception_stops_worker (H := Ref.runtime) (Some "key")
           default_watchlist 200 Demo.env_up Demo.session_closed 5 (Demo.fresh 42));
    reflexivity.
Defined.

(** X12, witness: two rounds for AAPL and MSFT. *)
Lemma simulator_round_robin_witness :
  exists new,
    published (snd Demo.run_sim_two) = new ++ published (Demo.fresh 42) /\
    length new = (2 * length ["AAPL"; "MSFT"])%nat /\
    symbols_of (rev new) = concat (replicate 2 (map PStr ["AAPL"; "MSFT"])).
Proof.
  destruct (fst Demo.run_sim_two) as [b|] eqn:Hrun; [|by vm_compute in Hrun].
  exact (simulator_round_robin (H := Ref.runtime) ["AAPL"; "MSFT"] 200 Demo.env_up 2
           b (Demo.fresh 42) (snd Demo.run_sim_two) (pair_of_fst _ _ Hrun)).
Defined.

(** X13, witness: MSFT after two rounds for AAPL and MSFT. *)
Lemma simulator_fills_latest_witness :
  has_latest_tick (H := Ref.runtime) (db (snd Demo.run_sim_two)) "MSFT".
Proof.
  destruct (fst Demo.run_sim_two) as [b|] eqn:Hrun; [|by vm_compute in Hrun].
  apply (simulator_fills_latest (H := Ref.runtime) ["AAPL"; "MSFT"] 200 Demo.env_up 2
           "MSFT" b (Demo.fresh 42) (snd Demo.run_sim_two)).
  - lia.
  - simpl. tauto.
  - exact (pair_of_fst _ _ Hrun).
Defined.

(** ** Properties of the Watchlist *)

Module PyStringFacts.
Import PyString.

Lemma upper_ascii_idem (a : ascii) : upper_ascii (upper_ascii a) = upper_ascii a.
Proof. destruct a as [[] [] [] [] [] [] [] []]; reflexivity. Qed.

Lemma is_space_upper (a : ascii) : is_space (upper_ascii a) = is_space a.
Proof. destruct a as [[] [] [] [] [] [] [] []]; reflexivity. Qed.

Lemma upper_idem (s : string) : upper (upper s) = upper s.
Proof. induction s as [|a r IH]; simpl; [reflexivity|]. by rewrite upper_ascii_idem, IH. Qed.

Lemma lstrip_upper (s : string) : lstrip (upper s) = upper (lstrip s).
Proof.
  induction s as [|a r IH]; simpl; [reflexivity|].
  rewrite is_space_upper. by destruct (is_space a).
Qed.

Lemma rstrip_upper (s : string) : rstrip (upper s) = upper (rstrip s).
Proof.
  induction s as [|a r IH]; simpl; [reflexivity|].
  rewrite IH, is_space_upper.
  destruct (rstrip r) as [|b r']; simpl; [by destruct (is_space a)|reflexivity].
Qed.

Lemma strip_upper (s : string) : strip (upper s) = upper (strip s).
Proof. unfold strip. by rewrite lstrip_upper, rstrip_upper. Qed.

Lemma rstrip_idem (s : string) : rstrip (rstrip s) = rstrip s.
Proof.
  induction s as [|a r IH]; simpl; [reflexivity|].
  destruct (rstrip r) as [|b r'] eqn:Hr.
  - destruct (is_space a) eqn:Ha; simpl; [reflexivity|by rewrite Ha].
  - cbn [rstrip]. cbn [rstrip] in IH. by rewrite IH.
Qed.

Lemma lstrip_no_lead (s : string) : no_lead (lstrip s).
Proof. induction s as [|a r IH]; simpl; [done|]. by destruct (is_space a) eqn:Ha. Qed.

Lemma no_lead_lstrip (s : string) : no_lead s -> lstrip s = s.
Proof. destruct s as [|a r]; simpl; [done|]. by intros ->. Qed.

Lemma rstrip_no_lead (s : string) : no_lead s -> no_lead (rstrip s).
Proof.
  destruct s as [|a r]; simpl; [done|]. intros Ha.
  destruct (rstrip r); simpl; [by rewrite Ha|done].
Qed.

Lemma strip_idem (s : string) : strip (strip s) = strip s.
Proof.
  unfold strip.
  rewrite (no_lead_lstrip (rstrip (lstrip s))), rstrip_idem; [reflexivity|].
  apply rstrip_no_lead, lstrip_no_lead.
Qed.

Lemma split_length (sep : ascii) (s : string) :
  split sep s <> [] /\
  length (split sep s)
  = S ((fix count (v : string) : nat :=
          match v with
          | EmptyString => O
          | String c r => if Ascii.eqb c sep then S (count r) else count r
          end) s).
Proof.
  induction s as [|a r [IHne IHlen]]; simpl; [by split|].
  destruct (Ascii.eqb a sep); simpl.
  - split; [done|]. by rewrite IHlen.
  - destruct (split sep r) as [|x xs]; [done|]. simpl in *. split; [done|exact IHlen].
Qed.

End PyStringFacts.

(** X14: whatever the value of the variable WATCHLIST, the Watchlist of the
    worker is never empty (it has one entry more than the value has commas,
    an empty value giving the one empty symbol), and each of its entries is
    in upper case and free of surrounding blanks, so that stripping or
    upper-casing an entry again changes nothing. *)
Theorem watchlist_entries_normalised (v : string) :
  watchlist_of_env v <> [] /\
  length (watchlist_of_env v) = S (commas v) /\
  Forall (fun s => PyString.upper s = s /\ PyString.strip s = s) (watchlist_of_env v).
Proof.
  unfold watchlist_of_env.
  destruct (PyStringFacts.split_length "," v) as [Hne Hlen].
  split; [|split].
  - destruct (PyString.split "," v); [done|discriminate].
  - rewrite length_map, Hlen. reflexivity.
  - apply Forall_map, Forall_forall. intros s _. simpl. split.
    + apply PyStringFacts.upper_idem.
    + by rewrite <- PyStringFacts.strip_upper, PyStringFacts.strip_idem.
Qed.

(** ** Further properties of the dashboard *)

Section DashboardExtras.
Context `{PyRuntime}.
Variable WATCHLIST : list string.
Variable TICK_LIST_LEN : Z.
Variable E : env.
Variable yfinance : string -> yf_answer.
Variable redis_ok : bool.

(** The reader finds nothing under a key that holds no usable text. *)
Lemma get_latest_miss (symbol : string) (w : world) :
  redis_up E (ncmd w) = false \/
  (forall d, db w !! ("latest:" +:+ PyString.upper symbol) = Some (Redis.RStr d) ->
             d = "" \/ json_loads d = None) ->
  fst (get_latest_from_redis E symbol w) = Ok PNone.
Proof.
  intros Hmiss.
  unfold get_latest_from_redis, try_except, bind, redis_get, Redis.get.
  destruct (redis_up E (ncmd w)) eqn:Hup; [|reflexivity].
  destruct Hmiss as [|Hmiss]; [discriminate|].
  destruct (db w !! _) as [[d|l]|]; simpl; try reflexivity.
  destruct (Hmiss d eq_refl) as [-> | Hbad]; [reflexivity|].
  destruct (String.eqb d ""); simpl; [reflexivity|]. by rewrite Hbad.
Qed.

(** X15: the reader of [latest:SYMBOL] never raises and never changes the
    content of the server; it returns [None] when the server does not answer
    and whenever the key holds no usable text: a missing key, a key that holds
    a list, an empty text, or a text that is not JSON. *)
Theorem reader_tolerates_failures (symbol : string) (w : world) :
  (exists v, fst (get_latest_from_redis E symbol w) = Ok v) /\
  db (snd (get_latest_from_redis E symbol w)) = db w /\
  (redis_up E (ncmd w) = false \/
   (forall d, db w !! ("latest:" +:+ PyString.upper symbol) = Some (Redis.RStr d) ->
              d = "" \/ json_loads d = None) ->
   fst (get_latest_from_redis E symbol w) = Ok PNone).
Proof.
  split; [|split; [|apply get_latest_miss]];
    unfold get_latest_from_redis, try_except, bind, redis_get, Redis.get;
    destruct (redis_up E (ncmd w)); simpl; eauto;
    destruct (db w !! _) as [[d|l]|]; simpl; eauto;
    destruct (String.eqb d ""); simpl; eauto;
    destruct (json_loads d); simpl; eauto.
Qed.

(** X16: a tick published under a symbol that is not in upper case (as the
    live feed does for a provider symbol in lower case) can never be read by
    the dashboard: on a server that held nothing else, the reader returns
    [None] whatever symbol it is asked for. *)
Theorem lower_case_symbol_is_never_read
    (sym : string) (price size : pyval) (ev : string) (w w' : world) (asked : string) :
  db w = ∅ ->
  PyString.upper sym <> sym ->
  publish_tick TICK_LIST_LEN E (PStr sym) price size ev w = (Ok tt, w') ->
  fst (get_latest_from_redis E asked w') = Ok PNone.
Proof.
  intros Hempty Hlower Hpub.
  apply publish_tick_ok in Hpub as (p & n & _ & _ & _ & _ & Hoth & _).
  apply get_latest_miss. right. intros d Hd.
  rewrite Hoth in Hd.
  - by rewrite Hempty, lookup_empty in Hd.
  - intros Heq. apply RedisFacts.latest_inj in Heq. simpl in Heq.
    apply Hlower. rewrite <- Heq. apply PyStringFacts.upper_idem.
  - apply RedisFacts.latest_ne_ticks.
Qed.

Lemma tape_rows_without_redis (wl : list string) (w : world) :
  redis_ok = false ->
  tape_rows E yfinance redis_ok wl w =
  (Ok (map (fun raw =>
              PDict [("symbol", PStr (PyString.upper (PyString.strip raw)));
                     ("last", yf_last (yfinance (PyString.upper (PyString.strip raw))));
                     ("source", PStr "yfinance")]) wl),
   w).
Proof.
  intros Hno. induction wl as [|raw rest IH]; [reflexivity|].
  cbn [tape_rows map]. unfold bind at 1.
  assert (Hrow : tape_row E yfinance redis_ok raw w =
                 (Ok (PDict [("symbol", PStr (PyString.upper (PyString.strip raw)));
                             ("last", yf_last (yfinance (PyString.upper (PyString.strip raw))));
                             ("source", PStr "yfinance")]), w)).
  { unfold tape_row. rewrite Hno. unfold bind, ret, lift. simpl.
    unfold fallback_yfinance, yf_last.
    by destruct (yfinance (PyString.upper (PyString.strip raw))). }
  rewrite Hrow. unfold bind. rewrite IH. reflexivity.
Qed.

(** X17: when the page could not reach the server at its start, the tape
    is built from yfinance alone and sends nothing to the server: one row per
    entry of the Watchlist, in order, with the symbol stripped and in upper
    case, the source [yfinance], and for [last] the last close when the
    service gave a history that is not empty, [None] otherwise. *)
Theorem render_tape_without_redis (w : world) :
  redis_ok = false ->
  render_tape WATCHLIST E yfinance redis_ok w =
  (Ok (map (fun raw =>
              PDict [("symbol", PStr (PyString.upper (PyString.strip raw)));
                     ("last", yf_last (yfinance (PyString.upper (PyString.strip raw))));
                     ("source", PStr "yfinance")]) WATCHLIST),
   w).
Proof. apply tape_rows_without_redis. Qed.

(** X18: for a symbol whose latest entry was written by the worker, the
    row of the tape shows no price: the dict of a tick has neither a field
    [last] nor a field [source], so the row reads [last] None and [source]
    unknown, and yfinance is not asked. *)
Theorem tape_row_of_worker_tick
    (raw : string) (sym : pyval) (p : float) (n : Z) (now : datetime) (ev : string)
    (w : world) :
  redis_ok = true ->
  redis_up E (ncmd w) = true ->
  db w !! ("latest:" +:+ PyString.upper (PyString.strip raw))
    = Some (Redis.RStr (json_dumps (tick_payload sym p n now ev))) ->
  json_dumps (tick_payload sym p n now ev) <> "" ->
  json_loads (json_dumps (tick_payload sym p n now ev))
    = Some (tick_payload sym p n now ev) ->
  fst (tape_row E yfinance redis_ok raw w)
  = Ok (PDict [("symbol", PStr (PyString.upper (PyString.strip raw)));
               ("last", PNone); ("source", PStr "unknown")]).
Proof.
  intros Hok Hup Hget Hne Hload.
  assert (Hread : fst (get_latest_from_redis E (PyString.upper (PyString.strip raw)) w)
                  = Ok (tick_payload sym p n now ev)).
  { eapply get_latest_hit; eauto. by rewrite PyStringFacts.upper_idem. }
  unfold tape_row. rewrite Hok. unfold bind at 1.
  destruct (get_latest_from_redis E _ w) as [r w1]. simpl in Hread. subst r.
  reflexivity.
Qed.

Lemma loads_all_dumps (l : list pyval) :
  Forall (fun p => json_loads (json_dumps p) = Some p) l ->
  loads_all (map json_dumps l) = Ok l.
Proof.
  induction 1 as [|p l Hp _ IH]; simpl; [reflexivity|]. by rewrite Hp, IH.
Qed.

(** X19: after N ticks were published for a symbol whose window did not
    exist, with a capacity C of at least 1, the view of the recent ticks of
    the dashboard gets the min(N, C, 20) most recently published ticks, most
    recent first, provided the server answers and the text of each of these
    ticks reads back as the tick. *)
Theorem recent_ticks_after_publishes
    (sym : pyval) (ticks : list (pyval * pyval)) (w w' : world) :
  1 <= TICK_LIST_LEN ->
  db w !! ticks_key sym = None ->
  publish_seq TICK_LIST_LEN E sym ticks w = (Ok tt, w') ->
  redis_up E (ncmd w') = true ->
  Forall (fun p => json_loads (json_dumps p) = Some p)
         (take (length ticks) (published w')) ->
  fst (recent_ticks E (py_str sym) w')
  = Ok (take (Nat.min (Z.to_nat TICK_LIST_LEN) 20)
             (take (length ticks) (published w'))).
Proof.
  intros Hc Hfresh Hrun Hup Hload.
  assert (Hold : Redis.window (ticks_key sym) (db w) = []).
  { unfold Redis.window. by rewrite Hfresh. }
  destruct (publish_seq_window TICK_LIST_LEN E sym ticks Hc w w') as (new & Hnew & Hpub & Hw);
    [rewrite Hold; simpl; lia|done|].
  rewrite Hold, app_nil_r in Hw.
  assert (Hlen : length new = length ticks).
  { apply Forall2_length in Hnew. by rewrite length_rev in Hnew. }
  assert (Htake : take (length ticks) (published w') = new).
  { by rewrite Hpub, <- Hlen, take_app_length. }
  rewrite Htake in Hload. rewrite Htake. clear Htake.
  unfold recent_ticks, bind, redis_lrange, Redis.lrange, lift. rewrite Hup.
  fold (ticks_key sym). simpl.
  destruct new as [|x new'].
  - destruct ticks as [|t ticks]; [|discriminate].
    simpl in Hrun. revert Hrun. intros [= <-]. rewrite Hfresh.
    by rewrite take_nil.
  - unfold Redis.window in Hw.
    destruct (db w' !! ticks_key sym) as [[s|l]|];
      [by destruct (Z.to_nat TICK_LIST_LEN) eqn:Hz; [lia|]| |
       by destruct (Z.to_nat TICK_LIST_LEN) eqn:Hz; [lia|]].
    rewrite Hw, (RedisFacts.trim_range_firstn 20) by lia.
    rewrite take_take, firstn_map.
    replace (Nat.min (Z.to_nat 20) (Z.to_nat TICK_LIST_LEN))
      with (Nat.min (Z.to_nat TICK_LIST_LEN) 20) by lia.
    apply loads_all_dumps. by apply Forall_take.
Qed.

(** X20: the edges of the view of the recent ticks.  A missing list gives
    the empty list; a server that does not answer, a key that holds a string
    and an element that is not JSON each end the [try] with an exception, and
    the store is never changed. *)
Theorem recent_ticks_edge_cases (sym : string) (w : world) :
  db (snd (recent_ticks E sym w)) = db w /\
  (redis_up E (ncmd w) = false ->
   fst (recent_ticks E sym w) = Raise ConnectionError) /\
  (redis_up E (ncmd w) = true -> db w !! ("ticks:" +:+ sym) = None ->
   fst (recent_ticks E sym w) = Ok []) /\
  (redis_up E (ncmd w) = true ->
   (exists d, db w !! ("ticks:" +:+ sym) = Some (Redis.RStr d)) ->
   fst (recent_ticks E sym w) = Raise ResponseError) /\
  (forall x l, redis_up E (ncmd w) = true ->
   db w !! ("ticks:" +:+ sym) = Some (Redis.RList (x :: l)) ->
   json_loads x = None ->
   fst (recent_ticks E sym w) = Raise JSONDecodeError).
Proof.
  unfold recent_ticks, bind, redis_lrange, Redis.lrange, lift.
  split; [|split; [|split; [|split]]].
  - destruct (redis_up E (ncmd w)); [|reflexivity].
    by destruct (db w !! _) as [[d|l]|].
  - by intros ->.
  - by intros -> ->.
  - by intros -> [d ->].
  - intros x l -> -> Hbad.
    assert (Htrim : Redis.trim_range 0 19 (x :: l) = x :: take 19 l).
    { rewrite (RedisFacts.trim_range_firstn 20) by lia. reflexivity. }
    rewrite Htrim. simpl. by rewrite Hbad.
Qed.

End DashboardExtras.

(** X16, witness: AAPL published in lower case, and asked for in lower
    case. *)
Lemma lower_case_symbol_is_never_read_witness :
  fst (get_latest_from_redis (H := Ref.runtime) Demo.env_up "aapl"
         (snd Demo.run_lower_pub)) = Ok PNone.
Proof.
  apply (lower_case_symbol_is_never_read (H := Ref.runtime) 200 Demo.env_up "aapl"
           (PInt 150) (PInt 1) "T" (Demo.fresh 42) (snd Demo.run_lower_pub) "aapl").
  - reflexivity.
  - vm_compute. discriminate.
  - apply pair_of_fst. vm_compute. reflexivity.
Defined.

(** X17, witness: a Watchlist of two entries, one known to yfinance. *)
Lemma render_tape_without_redis_witness :
  render_tape (H := Ref.runtime) [" aapl"; "msft"] Demo.env_up Demo.yf false
              (Demo.fresh 42) =
  (Ok (map (fun raw =>
              PDict [("symbol", PStr (PyString.upper (PyString.strip raw)));
                     ("last", yf_last (Demo.yf (PyString.upper (PyString.strip raw))));
                     ("source", PStr "yfinance")]) [" aapl"; "msft"]),
   Demo.fresh 42).
Proof.
  apply (render_tape_without_redis (H := Ref.runtime) [" aapl"; "msft"] Demo.env_up
           Demo.yf false (Demo.fresh 42)).
  reflexivity.
Defined.

(** X18, witness: the row of AAPL after the worker published one tick. *)
Lemma tape_row_of_worker_tick_witness :
  fst (tape_row (H := Ref.runtime) Demo.env_up Demo.yf true " aapl " (snd Demo.run1))
  = Ok (PDict [("symbol", PStr (PyString.upper (PyString.strip " aapl ")));
               ("last", PNone); ("source", PStr "unknown")]).
Proof.
  apply (tape_row_of_worker_tick (H := Ref.runtime) Demo.env_up Demo.yf true " aapl "
           (PStr "AAPL") 150%float 1 (Demo.clock 0) "T" (snd Demo.run1)).
  - reflexivity.
  - reflexivity.
  - vm_compute. reflexivity.
  - vm_compute. discriminate.
  - vm_compute. reflexivity.
Defined.

(** X19, witness: three ticks published with a capacity of 2. *)
Lemma recent_ticks_after_publishes_witness :
  fst (recent_ticks (H := Ref.runtime) Demo.env_up
         (py_str (H := Ref.runtime) (PStr "AAPL")) (snd Demo.run3))
  = Ok (take (Nat.min (Z.to_nat 2) 20)
             (take (length Demo.ticks3) (published (snd Demo.run3)))).
Proof.
  apply (recent_ticks_after_publishes (H := Ref.runtime) 2 Demo.env_up
           (PStr "AAPL") Demo.ticks3 (Demo.fresh 42) (snd Demo.run3)).
  - lia.
  - vm_compute. reflexivity.
  - apply pair_of_fst. vm_compute. reflexivity.
  - reflexivity.
  - match goal with
    | |- Forall _ ?l =>
        let l' := eval vm_compute in l in
        replace l with l' by (vm_compute; reflexivity)
    end.
    repeat constructor; vm_compute; reflexivity.
Defined.

(** ** Further properties of the simulator *)

Section SimulatorExtras.
Context `{PyRuntime}.
Variable WATCHLIST : list string.
Variable TICK_LIST_LEN : Z.
Variable E : env.

(** X21: a step of the simulator keeps the new price of the symbol in full
    precision and publishes its rounding to two decimals: the walk goes on
    from the price that was not rounded, so the roundings do not add up. *)
Theorem sim_symbol_publishes_rounded_price
    (s : string) (base base' : gmap string float) (w w' : world) :
  sim_symbol TICK_LIST_LEN E s base w = (Ok base', w') ->
  exists new payload,
    base' !! s = Some new /\
    published w' = payload :: published w /\
    py_get payload "symbol" = Ok (PStr s) /\
    py_get payload "price" = Ok (PFloat (round_ndigits new 2)) /\
    py_get payload "type" = Ok (PStr "T").
Proof.
  unfold sim_symbol. destruct (base !! s) as [last|]; [|discriminate].
  intros Hrun.
  apply bind_ok in Hrun as (c & w1 & Hc & Hrun). apply draw_ok in Hc as [-> ->].
  apply bind_ok in Hrun as (n & w2 & Hn & Hrun). apply draw_ok in Hn as [-> ->].
  apply bind_ok in Hrun as ([] & w3 & Hpub & Hrun). revert Hrun. intros [= <- <-].
  apply publish_tick_ok in Hpub as (p & k & Hp & _ & _ & _ & _ & Hhist & _).
  simpl in Hp. injection Hp as <-.
  eexists _, _. split; [apply lookup_insert_eq|]. split; [exact Hhist|].
  repeat split.
Qed.

Lemma init_base_keys (wl : list string) (base b : gmap string float) (w w' : world) :
  init_base wl base w = (Ok b, w') ->
  forall s, In s wl \/ is_Some (base !! s) -> is_Some (b !! s).
Proof.
  revert base w. induction wl as [|t rest IH]; intros base w; simpl.
  - intros [= <- <-] s [[]|Hs]. exact Hs.
  - intros Hrun s Hs. apply bind_ok in Hrun as (u & w1 & Hdraw & Hrun).
    eapply IH; [exact Hrun|].
    destruct (decide (t = s)) as [->|Hne].
    + right. rewrite lookup_insert_eq. eauto.
    + destruct Hs as [[|]|Hs]; [done|by left|].
      right. by rewrite lookup_insert_ne.
Qed.

Lemma init_base_returns (wl : list string) (base : gmap string float) (w : world) :
  exists b w', init_base wl base w = (Ok b, w').
Proof.
  revert base w. induction wl as [|t rest IH]; intros base w; simpl; [by eexists _, _|].
  unfold bind, draw. destruct (rng_random (rng w)) as [u g]. apply IH.
Qed.

(** The outcomes of a step for a symbol that has a price. *)
Lemma sim_symbol_outcomes (s : string) (base : gmap string float) (w w' : world) r :
  is_Some (base !! s) ->
  sim_symbol TICK_LIST_LEN E s base w = (r, w') ->
  match r with
  | Ok b => forall t, is_Some (base !! t) -> is_Some (b !! t)
  | Raise e => e = ConnectionError \/ e = ResponseError
  end.
Proof.
  intros [last Hs]. unfold sim_symbol. rewrite Hs. unfold bind, draw.
  destruct (rng_uniform _ _ _) as [c g]. simpl.
  destruct (rng_randint _ _ _) as [n g']. simpl.
  destruct (publish_tick _ _ _ _ _ _ _) as [[[]|e] w1] eqn:Hpub; intros [= <- <-].
  - intros t Ht. destruct (decide (s = t)) as [->|Hne].
    + rewrite lookup_insert_eq. eauto.
    + by rewrite lookup_insert_ne.
  - apply publish_tick_raise_inv in Hpub as (_ & _ & [[_ [Hbad|Hbad]]|[He _]]);
      [discriminate|discriminate|exact He].
Qed.

Lemma sim_round_outcomes (wl : list string) (base : gmap string float) (w w' : world) r :
  (forall s, In s wl -> is_Some (base !! s)) ->
  sim_round TICK_LIST_LEN E wl base w = (r, w') ->
  match r with
  | Ok b => forall t, is_Some (base !! t) -> is_Some (b !! t)
  | Raise e => e = ConnectionError \/ e = ResponseError
  end.
Proof.
  revert base w. induction wl as [|s rest IH]; intros base w Hkeys; cbn [sim_round].
  - by intros [= <- <-].
  - unfold bind.
    destruct (sim_symbol TICK_LIST_LEN E s base w) as [[b1|e1] w1] eqn:Hsym.
    + pose proof (sim_symbol_outcomes _ _ _ _ _ (Hkeys s (or_introl eq_refl)) Hsym) as Hb1.
      simpl in Hb1. intros Hrun.
      apply IH in Hrun; [|intros t Ht; apply Hb1, Hkeys; by right].
      destruct r; [|exact Hrun]. intros t Ht. by apply Hrun, Hb1.
    + intros [= <- <-].
      exact (sim_symbol_outcomes _ _ _ _ _ (Hkeys s (or_introl eq_refl)) Hsym).
Qed.

Lemma sim_loop_outcomes (rounds : nat) (base : gmap string float) (w w' : world) e :
  (forall s, In s WATCHLIST -> is_Some (base !! s)) ->
  sim_loop WATCHLIST TICK_LIST_LEN E rounds base w = (Raise e, w') ->
  e = ConnectionError \/ e = ResponseError.
Proof.
  revert base w. induction rounds as [|k IH]; intros base w Hkeys; cbn [sim_loop].
  - discriminate.
  - unfold bind.
    destruct (sim_round TICK_LIST_LEN E WATCHLIST base w) as [[b1|e1] w1] eqn:Hround;
      pose proof (sim_round_outcomes _ _ _ _ _ Hkeys Hround) as Hout; simpl in Hout.
    + apply IH. intros s Hs. by apply Hout, Hkeys.
    + by intros [= <- <-].
Qed.

(** X22: the only exceptions that leave the simulator come from the
    server: [ConnectionError], or [ResponseError] when a key [ticks:SYMBOL]
    holds a string.  Every symbol of the Watchlist was given a price by the
    first loop, so no price is ever missing, and the prices and sizes it
    passes to [publish_tick] always convert. *)
Theorem simulate_ticks_raises_only_store_errors
    (rounds : nat) (e : exn) (w w' : world) :
  simulate_ticks WATCHLIST TICK_LIST_LEN E rounds w = (Raise e, w') ->
  e = ConnectionError \/ e = ResponseError.
Proof.
  unfold simulate_ticks, bind.
  destruct (init_base_returns WATCHLIST ∅ w) as (b0 & w0 & Hinit). rewrite Hinit.
  apply sim_loop_outcomes. intros s Hs.
  eapply init_base_keys; eauto.
Qed.

End SimulatorExtras.

(** X21, witness: the first step for AAPL from a price of 100. *)
Lemma sim_symbol_publishes_rounded_price_witness :
  exists new payload,
    Demo.step_base !! "AAPL" = Some new /\
    published (snd Demo.run_step) = payload :: published (Demo.fresh 42) /\
    py_get payload "symbol" = Ok (PStr "AAPL") /\
    py_get payload "price"
      = Ok (PFloat (round_ndigits (PyRuntime := Ref.runtime) new 2)) /\
    py_get payload "type" = Ok (PStr "T").
Proof.
  apply (sim_symbol_publishes_rounded_price (H := Ref.runtime) 200 Demo.env_up "AAPL"
           {["AAPL" := 100%float]} Demo.step_base (Demo.fresh 42) (snd Demo.run_step)).
  apply pair_of_fst. vm_compute. reflexivity.
Defined.

(** X22, witness: the run through the outage ends with [ConnectionError]. *)
Lemma simulate_ticks_raises_only_store_errors_witness :
  ConnectionError = ConnectionError \/ ConnectionError = ResponseError.
Proof.
  apply (simulate_ticks_raises_only_store_errors (H := Ref.runtime) ["AAPL"] 200
           Demo.env_outage 3 ConnectionError (Demo.fresh 42) (snd Demo.run_outage)).
  apply pair_of_fst. vm_compute. reflexivity.
Defined.
